(** * jQuery Websheet: a shallow embedding of [jquery.websheet.js]

    The plugin turns a FORM into a controller that builds a URL from the
    form's fields, fetches an HTML TABLE in the background, types and sorts
    its rows, and answers the [getState] / [setState] events.

    The embedding follows the source function by function.  What belongs to
    the JavaScript engine or to jQuery rather than to the plugin is modelled
    as follows.

    - Strings are [string]s of 8-bit characters; [toUpperCase], [trim] and
      the character classes of the regular expressions act on ASCII.
    - A Number is [NaN] or the exact decimal value read ([Fin q]); rounding
      to binary64, and with it overflow to an infinity, is not modelled.
    - [new Date(text)], the conversion of a string to a Number by the
      subtraction operator and [Array.prototype.sort] depend on the engine:
      they are fields of the class [Engine], over which everything is
      parametric.  Of the sort the class holds what the standard gives for
      every comparator: the result is a rearrangement of the array, and the
      sort returns when the comparator does.  The order is the engine's; the
      standard fixes it only for a consistent comparator ([consistent],
      [standard_sort]).  Two sorts are given, a plain insertion sort and the
      binary insertion sort of V8; both read the comparator's result as the
      standard does (negative, positive, and anything else, zero or [NaN],
      a tie), and both are proved to sort as the standard asks.  They
      differ where the comparator is not consistent.
    - A plain object is an association list in insertion order; an object
      created by the literal [{}] also answers for the members inherited
      from [Object.prototype].
    - A handler that throws keeps the mutations it made before throwing:
      handlers return the new state together with an [outcome]. *)

From Stdlib Require Import String Ascii List Bool Arith ZArith QArith Lia.
From Stdlib Require Import Permutation Sorted Lqa.
From Stdlib Require OrderedTypeEx.
Import ListNotations.

Local Open Scope string_scope.
Local Open Scope list_scope.
Local Open Scope nat_scope.

Set Implicit Arguments.

(* ===================================================================== *)
(** * Outcomes of JavaScript code *)
(* ===================================================================== *)

(** The only exception the plugin can raise by itself is a [TypeError]
    (calling a method on [undefined] or on a value that lacks it). *)
Inductive outcome (A : Type) : Type :=
| Returns (a : A)
| TypeError.

Arguments Returns {A} a.
Arguments TypeError {A}.

Definition bind {A B : Type} (m : outcome A) (k : A -> outcome B) : outcome B :=
  match m with
  | Returns a => k a
  | TypeError => TypeError
  end.

Notation "x <- m ;; k" := (bind m (fun x => k))
  (at level 61, m at next level, right associativity).

(* ===================================================================== *)
(** * Characters and strings *)
(* ===================================================================== *)

Module Js.

Definition code (c : ascii) : nat := nat_of_ascii c.

Definition between (lo hi : nat) (c : ascii) : bool :=
  (lo <=? code c) && (code c <=? hi).

(** [0-9] *)
Definition is_digit (c : ascii) : bool := between 48 57 c.

(** [a-zA-Z0-9] *)
Definition is_alnum (c : ascii) : bool :=
  is_digit c || between 65 90 c || between 97 122 c.

(** The class [\s] restricted to ASCII: tab, line feed, vertical tab, form
    feed, carriage return and space. *)
Definition is_space (c : ascii) : bool :=
  between 9 13 c || (code c =? 32).

(** [0-9\.+\-], the characters [stringToFloat] keeps. *)
Definition is_numeric_char (c : ascii) : bool :=
  is_digit c || (code c =? 46) || (code c =? 43) || (code c =? 45).

(** [:+\/#?], the characters removed from a value of the form. *)
Definition is_value_reserved (c : ascii) : bool :=
  (code c =? 58) || (code c =? 43) || (code c =? 47)
  || (code c =? 35) || (code c =? 63).

(** [\s\.\-], the separators accepted inside a date. *)
Definition is_date_separator (c : ascii) : bool :=
  is_space c || (code c =? 46) || (code c =? 45).

Definition upper (c : ascii) : ascii :=
  if between 97 122 c then ascii_of_nat (code c - 32) else c.

Fixpoint filter (keep : ascii -> bool) (s : string) : string :=
  match s with
  | EmptyString => EmptyString
  | String c s' => if keep c then String c (filter keep s') else filter keep s'
  end.

(** [s.replace(/[cls]+/g, '')]: every character of the class is removed. *)
Definition remove (cls : ascii -> bool) (s : string) : string :=
  filter (fun c => negb (cls c)) s.

Fixpoint map (f : ascii -> ascii) (s : string) : string :=
  match s with
  | EmptyString => EmptyString
  | String c s' => String (f c) (map f s')
  end.

Definition toUpperCase (s : string) : string := map upper s.

(** [s.replace(c, d)] with a string pattern of one character: only the
    first occurrence is replaced. *)
Fixpoint replace_first (c d : ascii) (s : string) : string :=
  match s with
  | EmptyString => EmptyString
  | String x s' => if Ascii.eqb x c then String d s'
                   else String x (replace_first c d s')
  end.

Fixpoint count (c : ascii) (s : string) : nat :=
  match s with
  | EmptyString => 0
  | String x s' => (if Ascii.eqb x c then 1 else 0) + count c s'
  end.

Fixpoint trim_start (s : string) : string :=
  match s with
  | EmptyString => EmptyString
  | String c s' => if is_space c then trim_start s' else s
  end.

(** Drops the white space at the end: a character is kept when something
    that is kept follows it, or when it is not white space. *)
Fixpoint trim_end (s : string) : string :=
  match s with
  | EmptyString => EmptyString
  | String c s' =>
      match trim_end s' with
      | EmptyString => if is_space c then EmptyString else String c EmptyString
      | rest => String c rest
      end
  end.

Definition trim (s : string) : string := trim_end (trim_start s).

(** [s.replace(/[cls]+/g, by)]: every maximal run of characters of the
    class becomes one [by]. *)
Fixpoint replace_runs (cls : ascii -> bool) (by_ : ascii) (s : string) : string :=
  match s with
  | EmptyString => EmptyString
  | String c s' =>
      if cls c then
        match s' with
        | String c' _ => if cls c' then replace_runs cls by_ s'
                         else String by_ (replace_runs cls by_ s')
        | EmptyString => String by_ EmptyString
        end
      else String c (replace_runs cls by_ s')
  end.

(** [s.split(/([^a-zA-Z0-9]+)/)]: the alphanumeric chunks of [s] and, thanks
    to the capturing group, the separator runs between them.  The array
    starts and ends with a chunk (possibly empty) and alternates. *)
Fixpoint split_chunks (s : string) : list string :=
  match s with
  | EmptyString => [EmptyString]
  | String c s' =>
      match split_chunks s' with
      | [] => [String c EmptyString]
      | w :: rest =>
          if is_alnum c then String c w :: rest
          else
            match w, rest with
            | EmptyString, sep :: rest' => EmptyString :: String c sep :: rest'
            | _, _ => EmptyString :: String c EmptyString :: w :: rest
            end
      end
  end.

(** The white-space separated tokens of a [class] attribute. *)
Fixpoint class_tokens (s : string) : list string :=
  match s with
  | EmptyString => []
  | String c s' =>
      if is_space c then class_tokens s'
      else
        match s' with
        | String c' _ =>
            if is_space c' then String c EmptyString :: class_tokens s'
            else
              match class_tokens s' with
              | t :: ts => String c t :: ts
              | [] => [String c EmptyString]
              end
        | EmptyString => [String c EmptyString]
        end
  end.

Definition starts_with (c : ascii) (s : string) : bool :=
  match s with
  | String x _ => Ascii.eqb x c
  | EmptyString => false
  end.

Fixpoint ends_with (c : ascii) (s : string) : bool :=
  match s with
  | EmptyString => false
  | String x EmptyString => Ascii.eqb x c
  | String _ s' => ends_with c s'
  end.

(** [a.join(sep)] *)
Fixpoint join (sep : string) (l : list string) : string :=
  match l with
  | [] => EmptyString
  | [x] => x
  | x :: rest => (x ++ sep ++ join sep rest)%string
  end.

Definition concat (l : list string) : string := String.concat EmptyString l.

End Js.

(* ===================================================================== *)
(** * Numbers *)
(* ===================================================================== *)

Inductive number : Type :=
| NaN
| Fin (q : Q).

Definition fin (q : Q) : number := Fin (Qred q).

(** [a - b] *)
Definition num_sub (a b : number) : number :=
  match a, b with
  | Fin x, Fin y => fin (x - y)
  | _, _ => NaN
  end.

(** How [Array.prototype.sort] reads the value a comparator returns:
    [v < 0], [v > 0], and otherwise (zero or [NaN]) a tie. *)
Definition comparefn_verdict (v : number) : comparison :=
  match v with
  | NaN => Eq
  | Fin q => (q ?= 0)%Q
  end.

Module ParseFloat.

Definition digit_value (c : ascii) : Z := Z.of_nat (Js.code c - 48).

(** The longest run of decimal digits at the head of [s], read in base ten
    on top of [acc], with the number of digits read and the rest. *)
Fixpoint digits (acc : Z) (n : nat) (s : string) : Z * nat * string :=
  match s with
  | String c s' =>
      if Js.is_digit c then digits (10 * acc + digit_value c)%Z (S n) s'
      else (acc, n, s)
  | EmptyString => (acc, n, s)
  end.

Definition sign (s : string) : bool * string :=
  match s with
  | String c s' =>
      if (Js.code c =? 45) then (true, s')
      else if (Js.code c =? 43) then (false, s')
      else (false, s)
  | EmptyString => (false, s)
  end.

Definition signed (neg : bool) (q : Q) : Q := if neg then (- q)%Q else q.

(** [parseFloat] on the strings [stringToFloat] hands it, which hold digits,
    signs and periods only: an optional sign, then digits with an optional
    fraction or a fraction alone, as long a prefix as possible; [NaN] when
    there is no digit to read.  (Letters are gone, so no exponent and no
    [Infinity] can occur, and white space is gone too.) *)
Definition parseFloat (s : string) : number :=
  let '(neg, s1) := sign s in
  let '(ip, ni, s2) := digits 0 0 s1 in
  match s2 with
  | String c s3 =>
      if (Js.code c =? 46) then
        let '(fp, nf, _) := digits 0 0 s3 in
        if (ni =? 0) && (nf =? 0) then NaN
        else fin (signed neg (inject_Z ip + (fp # Z.to_pos (10 ^ Z.of_nat nf))))
      else if (ni =? 0) then NaN else fin (signed neg (inject_Z ip))
  | EmptyString => if (ni =? 0) then NaN else fin (signed neg (inject_Z ip))
  end.

End ParseFloat.

(** [stringToFloat(src, lang)] *)
Definition stringToFloat (src : string) (lang : string) : number :=
  if String.eqb lang "fr" then
    ParseFloat.parseFloat
      (Js.filter Js.is_numeric_char (Js.replace_first "," "." src))
  else
    ParseFloat.parseFloat (Js.filter Js.is_numeric_char src).

(* ===================================================================== *)
(** * Plain objects *)
(* ===================================================================== *)

Module Obj.

(** The own properties of a plain object whose values are strings, in the
    order in which they were created; a key occurs once, and [set],
    [assign] and [delete] keep it so. *)
Definition t : Type := list (string * string).

Definition empty : t := [].

Fixpoint own (k : string) (o : t) : option string :=
  match o with
  | [] => None
  | (k', v) :: o' => if String.eqb k' k then Some v else own k o'
  end.

(** Writing an own property: an existing one keeps its place. *)
Fixpoint set (k v : string) (o : t) : t :=
  match o with
  | [] => [(k, v)]
  | (k', v') :: o' =>
      if String.eqb k' k then (k', v) :: o' else (k', v') :: set k v o'
  end.

(** [delete o[k]] *)
Fixpoint delete (k : string) (o : t) : t :=
  match o with
  | [] => []
  | (k', v) :: o' =>
      if String.eqb k' k then o' else (k', v) :: delete k o'
  end.

(** The members every object created by [{}] inherits from
    [Object.prototype]. *)
Definition inherited : list string :=
  [ "constructor"; "toString"; "toLocaleString"; "valueOf";
    "hasOwnProperty"; "isPrototypeOf"; "propertyIsEnumerable";
    "__proto__"; "__defineGetter__"; "__defineSetter__";
    "__lookupGetter__"; "__lookupSetter__" ].

Definition is_inherited (k : string) : bool :=
  existsb (String.eqb k) inherited.

(** What [o[k]] evaluates to on an object created by [{}]. *)
Inductive property : Type :=
| Undefined
| Own (v : string)
| Inherited.

Definition get (k : string) (o : t) : property :=
  match own k o with
  | Some v => Own v
  | None => if is_inherited k then Inherited else Undefined
  end.

(** [o[k] = v] on an object created by [{}], [v] a string: the setter of
    [__proto__] ignores a string, every other name becomes an own
    property. *)
Definition assign (k v : string) (o : t) : t :=
  if String.eqb k "__proto__" then o else set k v o.

End Obj.

(* ===================================================================== *)
(** * Typed cells and the sort *)
(* ===================================================================== *)

(** What the engine decides: [new Date(text)] as a time value ([NaN] for an
    invalid date), the Number a string converts to under [-], and
    [Array.prototype.sort(comparefn)].  Whatever the comparator, the sort
    gives the elements of the array back, each as often as the array had
    it, and it returns when the comparator returns on the elements; an
    exception of the comparator leaves the sort.  In which order the
    elements come back is left to the engine here. *)
Class Engine : Type := {
  date_parse : string -> number;
  string_to_number : string -> number;
  array_sort :
    forall A : Type, (A -> A -> outcome number) -> list A -> outcome (list A);
  array_sort_permutation :
    forall (A : Type) (comparefn : A -> A -> outcome number) (l s : list A),
      array_sort comparefn l = Returns s -> Permutation l s;
  array_sort_returns :
    forall (A : Type) (comparefn : A -> A -> outcome number)
           (ok : A -> Prop) (l : list A),
      (forall a b, ok a -> ok b -> exists v, comparefn a b = Returns v) ->
      Forall ok l -> exists s, array_sort comparefn l = Returns s
}.

Arguments array_sort {Engine} {A} comparefn l.
Arguments array_sort_permutation {Engine} {A} comparefn l {s} _.
Arguments array_sort_returns {Engine} {A} comparefn {ok l} _ _.

(** An entry of a row's [__data]. *)
Inductive datum : Type :=
| DBool (b : bool)
| DNumber (n : number)
| DDate (time : number)
| DText (s : string).

Record Cell : Type := {
  c_text : string;
  c_classes : list string
}.

Record Row : Type := {
  r_cells : list Cell;
  __data : list datum
}.

Section Sorting.

Context {engine : Engine}.

(** The Number an operand of [-] converts to; [None] is [undefined], what
    indexing [__data] past its end gives. *)
Definition to_number (d : option datum) : number :=
  match d with
  | None => NaN
  | Some (DBool b) => Fin (if b then 1 else 0)
  | Some (DNumber n) => n
  | Some (DDate time) => time
  | Some (DText s) => string_to_number s
  end.

(** [x.toUpperCase().toString()], which exists on strings only. *)
Definition upper_text (d : option datum) : outcome string :=
  match d with
  | Some (DText s) => Returns (Js.toUpperCase s)
  | _ => TypeError
  end.

(** The comparator of the cases ['bool'], ['number'], ['amount'], ['date']. *)
Definition compare_numeric (colIndex : nat) (a b : Row) : outcome number :=
  Returns (num_sub (to_number (nth_error (__data a) colIndex))
                   (to_number (nth_error (__data b) colIndex))).

(** The comparator of the default case. *)
Definition compare_text (colIndex : nat) (a b : Row) : outcome number :=
  as_ <- upper_text (nth_error (__data a) colIndex) ;;
  bs <- upper_text (nth_error (__data b) colIndex) ;;
  match String.compare as_ bs with
  | Gt => Returns (Fin 1)
  | Lt => Returns (Fin (-1))
  | Eq => Returns (Fin 0)
  end.

Definition is_numeric_type (sortType : option string) : bool :=
  match sortType with
  | Some k => String.eqb k "bool" || String.eqb k "number"
              || String.eqb k "amount" || String.eqb k "date"
  | None => false
  end.

Definition comparator (colIndex : nat) (sortType : option string)
  : Row -> Row -> outcome number :=
  if is_numeric_type sortType then compare_numeric colIndex
  else compare_text colIndex.

End Sorting.

Section ArraySort.

Variable A : Type.
Variable comparefn : A -> A -> outcome number.

(** A tie group: rows any two of which the comparator calls a tie. *)
Definition tie_group (tie : A -> bool) : Prop :=
  forall a b, tie a = true -> tie b = true ->
  forall v, comparefn a b = Returns v -> comparefn_verdict v = Eq.

(** The comparator does not put [a] after [b]. *)
Definition not_greater (a b : A) : Prop :=
  forall v, comparefn a b = Returns v -> comparefn_verdict v <> Gt.

(** The comparator reads [a] against [b] as [c]: it returns a Number that
    is not [NaN], negative for [Lt], zero for [Eq], positive for [Gt]. *)
Definition reads (a b : A) (c : comparison) : Prop :=
  exists q, comparefn a b = Returns (Fin q) /\ (q ?= 0)%Q = c.

(** A consistent comparison function for the elements of [l], in the words
    of the standard: it returns a Number other than [NaN] for every pair,
    calls every element a tie with itself, a tie of [a] with [b] is one of
    [b] with [a], and ties, "less than" and "greater than" are each
    transitive. *)
Definition consistent (l : list A) : Prop :=
  (forall a b, In a l -> In b l -> exists c, reads a b c)
  /\ (forall a, In a l -> reads a a Eq)
  /\ (forall a b, In a l -> In b l -> reads a b Eq -> reads b a Eq)
  /\ (forall c a b d, In a l -> In b l -> In d l ->
      reads a b c -> reads b d c -> reads a d c).

(** ** A plain insertion sort *)

(** [x] goes in front of the first element it is not greater than. *)
Fixpoint insert (x : A) (l : list A) : outcome (list A) :=
  match l with
  | [] => Returns [x]
  | y :: l' =>
      v <- comparefn x y ;;
      match comparefn_verdict v with
      | Gt => r <- insert x l' ;; Returns (y :: r)
      | _ => Returns (x :: l)
      end
  end.

(** The elements are inserted one by one, the last one first. *)
Fixpoint insertion_sort (l : list A) : outcome (list A) :=
  match l with
  | [] => Returns []
  | x :: l' => s <- insertion_sort l' ;; insert x s
  end.

(** ** The binary insertion sort of V8

    V8 sorts with TimSort ([array-sort.tq]).  An array of fewer than 64
    elements is a single run there: [CountAndMakeRun] takes the longest
    ascending or strictly descending run at the head of the array,
    reversing a descending one, and [BinaryInsertionSort] inserts the
    elements after it, each at the place a binary search finds.  The
    comparator is called as [comparefn(x, y)] and a [NaN] it returns is
    read as zero. *)

(** [order < 0] *)
Definition negative (order : number) : bool :=
  match comparefn_verdict order with
  | Lt => true
  | _ => false
  end.

(** The loop of [CountAndMakeRun], from the third element of the array on:
    the elements that continue the run after [previous], and the rest.  A
    descending run goes on while [order < 0], an ascending one until
    then. *)
Fixpoint extend_run (descending : bool) (previous : A) (l : list A)
  : outcome (list A * list A) :=
  match l with
  | [] => Returns ([], [])
  | current :: l' =>
      order <- comparefn current previous ;;
      if Bool.eqb (negative order) descending
      then p <- extend_run descending current l' ;;
           Returns (current :: fst p, snd p)
      else Returns ([], l)
  end.

(** [CountAndMakeRun]: the run at the head of the array, in ascending
    order, and the rest of the array. *)
Definition count_and_make_run (l : list A) : outcome (list A * list A) :=
  match l with
  | first :: second :: l' =>
      order <- comparefn second first ;;
      p <- extend_run (negative order) second l' ;;
      let run := first :: second :: fst p in
      Returns (if negative order then rev run else run, snd p)
  | _ => Returns (l, [])
  end.

(** The search of [BinaryInsertionSort] for the place of [pivot] in
    [sorted], between [left] and [right]: the middle element decides which
    half is searched next.  [fuel] bounds the number of steps. *)
Fixpoint find_place (fuel : nat) (pivot : A) (sorted : list A)
    (left right : nat) : outcome nat :=
  match fuel with
  | O => Returns left
  | S fuel' =>
      if left <? right then
        let mid := left + Nat.div2 (right - left) in
        match nth_error sorted mid with
        | Some x =>
            order <- comparefn pivot x ;;
            if negative order
            then find_place fuel' pivot sorted left mid
            else find_place fuel' pivot sorted (S mid) right
        | None => Returns left
        end
      else Returns left
  end.

(** [BinaryInsertionSort]: the elements of [rest] go, one after the other,
    to their place in the part already sorted. *)
Fixpoint binary_insertion_sort (sorted rest : list A) : outcome (list A) :=
  match rest with
  | [] => Returns sorted
  | pivot :: rest' =>
      place <- find_place (length sorted) pivot sorted 0 (length sorted) ;;
      binary_insertion_sort
        (firstn place sorted ++ pivot :: skipn place sorted) rest'
  end.

(** The sort of V8 on an array it takes as a single run. *)
Definition short_array_sort (l : list A) : outcome (list A) :=
  p <- count_and_make_run l ;;
  binary_insertion_sort (fst p) (snd p).

End ArraySort.

(** An engine sorts as the standard asks when, the comparator being
    consistent for the elements of the array, the result is in the order
    of the comparator and the sort is stable: elements the comparator
    calls ties stand in the order they had.  (Stability is asked for since
    ECMAScript 2019.) *)
Definition standard_sort (engine : Engine) : Prop :=
  forall (A : Type) (comparefn : A -> A -> outcome number) (l s : list A),
    consistent comparefn l ->
    array_sort comparefn l = Returns s ->
    Sorted (not_greater comparefn) s
    /\ forall tie : A -> bool,
         tie_group comparefn tie -> List.filter tie s = List.filter tie l.

(** A row the comparator of the type [sortType] accepts at [colIndex]:
    any row for the numeric types, a row with a string there otherwise. *)
Definition sortable (colIndex : nat)
    (sortType : option string) (r : Row) : Prop :=
  is_numeric_type sortType = true
  \/ exists s, nth_error (__data r) colIndex = Some (DText s).

(** What [sortTable] does to the array [rows]: sort ascending, then reverse
    when [descending]. *)
Definition sort_rows {engine : Engine} (rows : list Row) (colIndex : nat)
    (descending : bool) (sortType : option string) : outcome (list Row) :=
  sorted <- array_sort (comparator colIndex sortType) rows ;;
  Returns (if descending then rev sorted else sorted).

(* ===================================================================== *)
(** * The table in the page *)
(* ===================================================================== *)

(** A cell of the first row of THEAD: the [class] attribute as it was read
    when the table arrived ([className] in the source), the classes the
    cell carries now, and its text. *)
Record Header : Type := {
  className : option string;
  h_classes : list string;
  h_text : string
}.

(** The CAPTION: what the document had in it, and the download link
    appended to it. *)
Record Caption : Type := {
  cap_html : string;
  cap_href : string;
  cap_title : string
}.

Record Table : Type := {
  t_caption : Caption;
  t_head : list Header;
  t_rows : list Row
}.

(** The response, as far as the plugin looks at it: its first TABLE if it
    has one, with the cells of the first row of THEAD and the text of the
    cells of every row of TBODY. *)
Record RawHeader : Type := {
  rh_class : option string;
  rh_text : string
}.

Record RawTable : Type := {
  rt_caption : option string;
  rt_head : list RawHeader;
  rt_body : list (list string)
}.

Definition Document : Type := option RawTable.

Module Dom.

Definition hasClass (cls : string) (classes : list string) : bool :=
  existsb (String.eqb cls) classes.

Definition add_one (classes : list string) (cls : string) : list string :=
  if hasClass cls classes then classes else classes ++ [cls].

(** [addClass(value)]; [undefined] adds nothing. *)
Definition addClass (value : option string) (classes : list string) : list string :=
  match value with
  | Some v => fold_left add_one (Js.class_tokens v) classes
  | None => classes
  end.

(** [removeClass(value)] *)
Definition removeClass (value : string) (classes : list string) : list string :=
  List.filter (fun c => negb (hasClass c (Js.class_tokens value))) classes.

Definition header_addClass (value : string) (h : Header) : Header :=
  {| className := className h;
     h_classes := addClass (Some value) (h_classes h);
     h_text := h_text h |}.

Definition header_removeClass (value : string) (h : Header) : Header :=
  {| className := className h;
     h_classes := removeClass value (h_classes h);
     h_text := h_text h |}.

(** [l.eq(i).f()]: [f] on the element at [i], nothing when there is none. *)
Fixpoint at_eq {A : Type} (i : nat) (f : A -> A) (l : list A) : list A :=
  match l, i with
  | [], _ => []
  | x :: l', O => f x :: l'
  | x :: l', S j => x :: at_eq j f l'
  end.

Definition with_head (f : list Header -> list Header) (t : Table) : Table :=
  {| t_caption := t_caption t; t_head := f (t_head t); t_rows := t_rows t |}.

Definition with_rows (rows : list Row) (t : Table) : Table :=
  {| t_caption := t_caption t; t_head := t_head t; t_rows := rows |}.

(** A header is marked when it carries [asc] or [desc]. *)
Definition marked (h : Header) : bool :=
  hasClass "asc" (h_classes h) || hasClass "desc" (h_classes h).

Definition count_marked (t : Table) : nat :=
  length (List.filter marked (t_head t)).

End Dom.

(** [sortTable(table, colIndex, descending, sortType)].  The rows are
    detached from TBODY first and appended again after the sort: when the
    comparator throws, TBODY stays empty. *)
Definition sortTable {engine : Engine} (table : Table) (colIndex : nat)
    (descending : bool) (sortType : option string) : Table * outcome unit :=
  match sort_rows (t_rows table) colIndex descending sortType with
  | Returns rows => (Dom.with_rows rows table, Returns tt)
  | TypeError => (Dom.with_rows [] table, TypeError)
  end.

(* ===================================================================== *)
(** * The form and the instance of the plugin *)
(* ===================================================================== *)

(** An INPUT or SELECT of the form: its [name] attribute, its value, and
    whether it carries the class [__widget_field]. *)
Record Control : Type := {
  name : option string;
  value : string;
  widget_field : bool
}.

(** A child with class [__widget_form]: what its own [setState] handler
    answers (truthy or falsy) and what it leaves of the object. *)
Definition Widget : Type := Obj.t -> bool * Obj.t.

(** The callback is the page's code; of what it may do, its effect on the
    controls of the form is tracked. *)
Definition Callback : Type := list Control -> list Control.

Record Form : Type := {
  data_filename_format : option string;
  data_source : option string;
  inputs : list Control;
  widget_forms : list Widget
}.

(** The argument of [$(form).websheet(args)]. *)
Record Args : Type := {
  a_lang : option string;
  a_init_sort_col : option nat;
  a_init_sort_desc : option bool;
  a_dl_title : option string;
  a_loading : option string;
  a_failed : option string;
  a_callback : option Callback
}.

(** The variables of the closure that are never assigned after the
    initialisation. *)
Record Settings : Type := {
  lang : string;
  init_sort_col : nat;
  init_sort_desc : bool;
  dl_title : string;
  loading : string;
  failed : string;
  callback : option Callback;
  format : list string;
  base_url : string;
  widgets : list Widget
}.

(** What [div] holds: markup, or the table appended to the emptied [div]. *)
Inductive Display : Type :=
| Markup (html : string)
| Shown (table : Table).

(** A request handed to [$.ajax]: its URL and the [fieldsObj] its
    [success] closure holds. *)
Record Request : Type := {
  url : string;
  fieldsObj : Obj.t
}.

Record Instance : Type := {
  settings : Settings;
  dl_url : string;
  controls : list Control;
  hiddens : list (string * string);
  last_submit : Obj.t;
  __websheet_sort_col : option nat;
  __websheet_sort_desc : option bool;
  __websheet_sort_title : option string;
  div : Display;
  pending : list Request
}.

Definition set_dl_url (v : string) (i : Instance) : Instance :=
  {| settings := settings i; dl_url := v; controls := controls i;
     hiddens := hiddens i; last_submit := last_submit i;
     __websheet_sort_col := __websheet_sort_col i;
     __websheet_sort_desc := __websheet_sort_desc i;
     __websheet_sort_title := __websheet_sort_title i;
     div := div i; pending := pending i |}.

Definition set_controls (v : list Control) (i : Instance) : Instance :=
  {| settings := settings i; dl_url := dl_url i; controls := v;
     hiddens := hiddens i; last_submit := last_submit i;
     __websheet_sort_col := __websheet_sort_col i;
     __websheet_sort_desc := __websheet_sort_desc i;
     __websheet_sort_title := __websheet_sort_title i;
     div := div i; pending := pending i |}.

Definition set_hiddens (v : list (string * string)) (i : Instance) : Instance :=
  {| settings := settings i; dl_url := dl_url i;
     controls := controls i;
     hiddens := v; last_submit := last_submit i;
     __websheet_sort_col := __websheet_sort_col i;
     __websheet_sort_desc := __websheet_sort_desc i;
     __websheet_sort_title := __websheet_sort_title i;
     div := div i; pending := pending i |}.

Definition set_last_submit (v : Obj.t) (i : Instance) : Instance :=
  {| settings := settings i; dl_url := dl_url i;
     controls := controls i;
     hiddens := hiddens i; last_submit := v;
     __websheet_sort_col := __websheet_sort_col i;
     __websheet_sort_desc := __websheet_sort_desc i;
     __websheet_sort_title := __websheet_sort_title i;
     div := div i; pending := pending i |}.

Definition set_sort (col : nat) (desc : bool) (title : string) (i : Instance)
  : Instance :=
  {| settings := settings i; dl_url := dl_url i;
     controls := controls i;
     hiddens := hiddens i; last_submit := last_submit i;
     __websheet_sort_col := Some col;
     __websheet_sort_desc := Some desc;
     __websheet_sort_title := Some title;
     div := div i; pending := pending i |}.

Definition set_div (v : Display) (i : Instance) : Instance :=
  {| settings := settings i; dl_url := dl_url i;
     controls := controls i;
     hiddens := hiddens i; last_submit := last_submit i;
     __websheet_sort_col := __websheet_sort_col i;
     __websheet_sort_desc := __websheet_sort_desc i;
     __websheet_sort_title := __websheet_sort_title i;
     div := v; pending := pending i |}.

Definition set_pending (v : list Request) (i : Instance) : Instance :=
  {| settings := settings i; dl_url := dl_url i;
     controls := controls i;
     hiddens := hiddens i; last_submit := last_submit i;
     __websheet_sort_col := __websheet_sort_col i;
     __websheet_sort_desc := __websheet_sort_desc i;
     __websheet_sort_title := __websheet_sort_title i;
     div := div i; pending := v |}.

(* ===================================================================== *)
(** * [$.fn.websheet]: initialisation *)
(* ===================================================================== *)

(** [if (args.x) { x = args.x; }] for a string: the empty string is falsy. *)
Definition or_default (given : option string) (default : string) : string :=
  match given with
  | Some s => if String.eqb s "" then default else s
  | None => default
  end.

Definition extension : string := ".xls".

(** The body of [this.each] for one form, after the options were read.
    [args.failed] is not among the options the source reads.  A form
    without [data-filename-format] or without [data-source] makes the
    initialisation throw before anything is installed. *)
Definition websheet (args : option Args) (form : Form) : outcome Instance :=
  let opt {A : Type} (f : Args -> option A) : option A :=
    match args with Some a => f a | None => None end in
  let lang := or_default (opt a_lang) "en" in
  let init_sort_col :=
    match opt a_init_sort_col with Some n => n | None => 0 end in
  let init_sort_desc :=
    match opt a_init_sort_desc with Some b => b | None => false end in
  let dl_title := or_default (opt a_dl_title) "Download spreadsheet" in
  let loading := or_default (opt a_loading) "Loading..." in
  let failed := "An error occured while attempting to load data." in
  let callback := opt a_callback in
  match data_filename_format form with
  | None => TypeError
  | Some template =>
      let format := Js.split_chunks template in
      match data_source form with
      | None => TypeError
      | Some source =>
          let dl_url := (source ++ Js.join "," format ++ extension)%string in
          let base_url :=
            if Js.ends_with "/" source then source else (source ++ "/")%string in
          Returns
            {| settings :=
                 {| lang := lang; init_sort_col := init_sort_col;
                    init_sort_desc := init_sort_desc; dl_title := dl_title;
                    loading := loading; failed := failed;
                    callback := callback; format := format;
                    base_url := base_url; widgets := widget_forms form |};
               dl_url := dl_url;
               controls := inputs form;
               hiddens := [];
               last_submit := Obj.empty;
               __websheet_sort_col := None;
               __websheet_sort_desc := None;
               __websheet_sort_title := None;
               div := Markup "";
               pending := [] |}
      end
  end.

(* ===================================================================== *)
(** * The [submit] handler *)
(* ===================================================================== *)

(** [form.serializeArray()]: the named controls in document order; the
    hidden inputs live in a SPAN appended to the form, hence come last. *)
Definition serializeArray (inst : Instance) : list (string * string) :=
  let named (c : Control) : list (string * string) :=
    match name c with
    | Some n => if String.eqb n "" then [] else [(n, value c)]
    | None => []
    end in
  let hidden (h : string * string) : list (string * string) :=
    if String.eqb (fst h) "" then [] else [h] in
  flat_map named (controls inst) ++ flat_map hidden (hiddens inst).

(** The body of [$.each(fields, ...)] on the pair [(dl_url, fieldsObj)]. *)
Definition each_field (acc : string * Obj.t) (field : string * string)
  : string * Obj.t :=
  let '(dl_url, fieldsObj) := acc in
  let '(fname, fvalue) := field in
  ((if negb (String.eqb fvalue "") && negb (Js.starts_with "_" fname)
    then (dl_url ++ Js.remove (fun c => negb (Js.is_alnum c)) fname ++ ":"
          ++ Js.remove Js.is_value_reserved fvalue ++ "/")%string
    else dl_url),
   Obj.assign fname fvalue fieldsObj).

(** What the loop leaves in [fieldsObj], field by field. *)
Definition assign_field (o : Obj.t) (f : string * string) : Obj.t :=
  Obj.assign (fst f) (snd f) o.

(** The [for] loop over [format]: [dl_url] when the loop ends or throws.
    A chunk that only names an inherited member is not [undefined], and the
    value found has no [replace]. *)
Fixpoint each_chunk (fieldsObj : Obj.t) (chunks : list string) (dl_url : string)
  : string * outcome unit :=
  match chunks with
  | [] => (dl_url, Returns tt)
  | chunk :: rest =>
      match Obj.get chunk fieldsObj with
      | Obj.Own v =>
          each_chunk fieldsObj rest
            (dl_url ++ Js.remove Js.is_value_reserved v)%string
      | Obj.Undefined => each_chunk fieldsObj rest (dl_url ++ chunk)%string
      | Obj.Inherited => (dl_url, TypeError)
      end
  end.

Definition submit (inst : Instance) : Instance * outcome unit :=
  let s := settings inst in
  let fields := serializeArray inst in
  let '(url1, fieldsObj) := fold_left each_field fields (base_url s, Obj.empty) in
  match each_chunk fieldsObj (format s) url1 with
  | (url2, TypeError) => (set_dl_url url2 inst, TypeError)
  | (url2, Returns _) =>
      let url3 := (url2 ++ extension)%string in
      let inst := set_dl_url url3 inst in
      let inst := set_div (Markup (loading s)) inst in
      (set_pending (pending inst ++ [{| url := url3; fieldsObj := fieldsObj |}]) inst,
       Returns tt)
  end.

(* ===================================================================== *)
(** * The [success] and [error] callbacks *)
(* ===================================================================== *)

Definition class_at (classes : list (option string)) (i : nat) : option string :=
  match nth_error classes i with
  | Some c => c
  | None => None
  end.

Definition is_class (k : string) (cls : option string) : bool :=
  match cls with
  | Some c => String.eqb c k
  | None => false
  end.

Section Materialize.

Context {engine : Engine}.

(** The [switch (classes[i])] of the row loop. *)
Definition type_cell (lang : string) (cls : option string) (cellText : string)
  : datum :=
  if is_class "bool" cls then DBool (negb (String.eqb (Js.trim cellText) ""))
  else if is_class "number" cls || is_class "amount" cls
       then DNumber (stringToFloat cellText lang)
  else if is_class "date" cls
       then DDate (date_parse
                     (Js.replace_runs Js.is_date_separator "/" (Js.trim cellText)))
  else DText (Js.trim cellText).

Definition indexed {A : Type} (l : list A) : list (nat * A) :=
  combine (seq 0 (length l)) l.

Definition materialize_row (lang : string) (classes : list (option string))
    (texts : list string) : Row :=
  {| r_cells :=
       List.map (fun it => {| c_text := snd it;
                              c_classes := Dom.addClass (class_at classes (fst it)) [] |})
                (indexed texts);
     __data :=
       List.map (fun it => type_cell lang (class_at classes (fst it)) (snd it))
                (indexed texts) |}.

(** The body of the loop over the header cells, on the variables
    [sort_col], [sort_desc] and [classes]. *)
Definition each_header (form_sort_col : option nat) (form_sort_desc : option bool)
    (form_sort_title : option string)
    (acc : nat * bool * list (option string)) (ih : nat * RawHeader)
  : nat * bool * list (option string) :=
  let '(sort_col, sort_desc, classes) := acc in
  let '(i, h) := ih in
  let same_col :=
    match form_sort_col with Some c => c =? i | None => false end in
  let same_title :=
    match form_sort_title with
    | Some t => String.eqb t (rh_text h)
    | None => false
    end in
  if same_col && same_title
  then (i,
        match form_sort_desc with Some d => d | None => false end,
        classes ++ [rh_class h])
  else (sort_col, sort_desc, classes ++ [rh_class h]).

Definition scan_headers (inst : Instance) (head : list RawHeader)
  : nat * bool * list (option string) :=
  fold_left
    (each_header (__websheet_sort_col inst) (__websheet_sort_desc inst)
                 (__websheet_sort_title inst))
    (indexed head)
    (init_sort_col (settings inst), init_sort_desc (settings inst), []).

(** Whether a header cell of [head], whose first cell has index [k], has
    the remembered index and title: what the loop over the header cells
    finds out from [k] on. *)
Definition found_from (form_sort_col : option nat)
    (form_sort_title : option string) (k : nat) (head : list RawHeader) : bool :=
  match form_sort_col, form_sort_title with
  | Some c, Some label =>
      (k <=? c)
      && match nth_error head (c - k) with
         | Some h => String.eqb label (rh_text h)
         | None => false
         end
  | _, _ => false
  end.

Definition remembered (form_sort_col : option nat)
    (form_sort_desc : option bool) : nat * bool :=
  (match form_sort_col with Some c => c | None => 0 end,
   match form_sort_desc with Some d => d | None => false end).

Definition run_callback (inst : Instance) : Instance :=
  match callback (settings inst) with
  | Some f => set_controls (f (controls inst)) inst
  | None => inst
  end.

Definition order_class (desc : bool) : string :=
  if desc then "desc" else "asc".

(** The table as [success] has it before the sort: the caption with the
    download link, the header cells, and the rows with their [__data]. *)
Definition materialize (inst : Instance) (raw : RawTable)
    (classes : list (option string)) : Table :=
  {| t_caption :=
       {| cap_html := match rt_caption raw with Some h => h | None => "" end;
          cap_href := dl_url inst;
          cap_title := dl_title (settings inst) |};
     t_head :=
       List.map (fun h => {| className := rh_class h;
                             h_classes :=
                               match rh_class h with
                               | Some c => Js.class_tokens c
                               | None => []
                               end;
                             h_text := rh_text h |})
                (rt_head raw);
     t_rows :=
       List.map (materialize_row (lang (settings inst)) classes) (rt_body raw) |}.

(** [success(data)] of the request [req].  When the document has no TABLE
    [table] is an empty jQuery set: what is done to it does nothing, [div]
    stays empty, the callback still runs, and there is no row to sort. *)
Definition success (inst : Instance) (req : Request) (data : Document)
  : Instance * outcome unit :=
  let s := settings inst in
  let '(sort_col, sort_desc, classes) :=
    scan_headers inst (match data with Some raw => rt_head raw | None => [] end) in
  let inst := set_last_submit (fieldsObj req) inst in
  match data with
  | None =>
      (run_callback (set_div (Markup "") inst), Returns tt)
  | Some raw =>
      let table := materialize inst raw classes in
      let inst := run_callback (set_div (Shown table) inst) in
      match sortTable table sort_col sort_desc (class_at classes sort_col) with
      | (table', TypeError) => (set_div (Shown table') inst, TypeError)
      | (table', Returns _) =>
          (set_div
             (Shown (Dom.with_head
                       (Dom.at_eq sort_col
                          (Dom.header_addClass (order_class sort_desc)))
                       table'))
             inst,
           Returns tt)
      end
  end.

(** [error()] *)
Definition error (inst : Instance) : Instance * outcome unit :=
  (set_div (Markup (failed (settings inst))) inst, Returns tt).

(* ===================================================================== *)
(** * The [click] handler of a header *)
(* ===================================================================== *)

(** The table after a click on the header at [i] that chose [d] and whose
    sort gave [rows]. *)
Definition after_click (t : Table) (i : nat) (d : bool) (rows : list Row)
  : Table :=
  Dom.with_head (Dom.at_eq i (Dom.header_addClass (order_class d)))
    (Dom.with_rows rows
       (Dom.with_head (List.map (Dom.header_removeClass "asc desc")) t)).

(** A click on the header at [i] of the table [div] shows (a table that
    left the page cannot be clicked). *)
Definition click (inst : Instance) (i : nat) : Instance * outcome unit :=
  match div inst with
  | Markup _ => (inst, Returns tt)
  | Shown table =>
      match nth_error (t_head table) i with
      | None => (inst, Returns tt)
      | Some this =>
          let init := init_sort_desc (settings inst) in
          let wasInit := Dom.hasClass (order_class init) (h_classes this) in
          let newDesc := negb (Bool.eqb wasInit init) in
          let newOrder := order_class newDesc in
          let table :=
            Dom.with_head (List.map (Dom.header_removeClass "asc desc")) table in
          match sortTable table i newDesc (className this) with
          | (table', TypeError) => (set_div (Shown table') inst, TypeError)
          | (table', Returns _) =>
              (set_sort i newDesc (h_text this)
                 (set_div
                    (Shown (Dom.with_head
                              (Dom.at_eq i (Dom.header_addClass newOrder))
                              table'))
                    inst),
               Returns tt)
          end
      end
  end.

End Materialize.

(* ===================================================================== *)
(** * The [setState] and [getState] handlers *)
(* ===================================================================== *)

(** [data[$(this).attr('name')]]: a missing attribute is [undefined], which
    as a key reads ["undefined"].  The object is the caller's: it is read
    through its own properties. *)
Definition control_key (c : Control) : string :=
  match name c with
  | Some n => n
  | None => "undefined"
  end.

(** The body of [inputs.each] on [changed], [data] and the control.
    [data[name]] is read among the own properties of the object: for a
    control named like a member of [Object.prototype] ([toString], say) the
    object answers with that member, a case [is_inherited] tells and this
    definition does not follow. *)
Definition each_input (changed : bool) (data : Obj.t) (c : Control)
  : bool * Obj.t * Control :=
  match Obj.own (control_key c) data with
  | Some v =>
      if negb (widget_field c) && negb (String.eqb v (value c))
      then (true,
            Obj.delete (control_key c) data,
            {| name := name c; value := v; widget_field := widget_field c |})
      else (changed, data, c)
  | None => (changed, data, c)
  end.

Fixpoint each_inputs (changed : bool) (data : Obj.t) (cs : list Control)
  : bool * Obj.t * list Control :=
  match cs with
  | [] => (changed, data, [])
  | c :: rest =>
      let '(changed1, data1, c1) := each_input changed data c in
      let '(changed2, data2, rest') := each_inputs changed1 data1 rest in
      (changed2, data2, c1 :: rest')
  end.

(** The loop over the children with class [__widget_form]. *)
Fixpoint each_widget (changed : bool) (data : Obj.t) (ws : list Widget)
  : bool * Obj.t :=
  match ws with
  | [] => (changed, data)
  | w :: rest =>
      let '(answer, data1) := w data in
      each_widget (if answer then true else changed) data1 rest
  end.

(** The handler of [setState]: the instance it leaves, the object it
    leaves, and what it returns. *)
Definition setState (inst : Instance) (data : Obj.t)
  : Instance * Obj.t * outcome bool :=
  let inst := set_hiddens [] inst in
  let '(changed1, data1, controls1) := each_inputs false data (controls inst) in
  let inst := set_controls controls1 inst in
  let '(changed2, data2) := each_widget changed1 data1 (widgets (settings inst)) in
  let inst := set_hiddens (hiddens inst ++ data2) inst in
  let changed3 := match data2 with [] => changed2 | _ :: _ => true end in
  match submit inst with
  | (inst', TypeError) => (inst', data2, TypeError)
  | (inst', Returns _) => (inst', data2, Returns changed3)
  end.

(** The handler of [getState]. *)
Definition getState (inst : Instance) : Obj.t := last_submit inst.

(* ===================================================================== *)
(** * The events an instance receives *)
(* ===================================================================== *)

Inductive Event : Type :=
| Submit
| Success (n : nat) (data : Document)
| Error (n : nat)
| Click (i : nat)
| SetState (data : Obj.t).

Fixpoint take_out {A : Type} (n : nat) (l : list A) : option (A * list A) :=
  match l, n with
  | [], _ => None
  | x :: l', O => Some (x, l')
  | x :: l', S m =>
      match take_out m l' with
      | Some (y, l'') => Some (y, x :: l'')
      | None => None
      end
  end.

(** One event; [Success n] and [Error n] answer the [n]-th request still
    waiting.  An exception ends the handler and nothing else. *)
Definition step {engine : Engine} (inst : Instance) (ev : Event) : Instance :=
  match ev with
  | Submit => fst (submit inst)
  | Success n data =>
      match take_out n (pending inst) with
      | Some (req, others) => fst (success (set_pending others inst) req data)
      | None => inst
      end
  | Error n =>
      match take_out n (pending inst) with
      | Some (_, others) => fst (error (set_pending others inst))
      | None => inst
      end
  | Click i => fst (click inst i)
  | SetState data => fst (fst (setState inst data))
  end.

Definition run {engine : Engine} (inst : Instance) (evs : list Event) : Instance :=
  fold_left step evs inst.

Definition is_success (ev : Event) : bool :=
  match ev with Success _ _ => true | _ => false end.

(* ===================================================================== *)
(** * Running the model *)
(* ===================================================================== *)

#[local] Obligation Tactic := idtac.

(** An engine that understands no date, converts no string to a Number and
    sorts by plain insertion: enough to run the model on tables without
    such cells. *)
Program Definition bare_engine : Engine :=
  {| date_parse := fun _ => NaN;
     string_to_number := fun _ => NaN;
     array_sort := insertion_sort |}.
Next Obligation.
  (* the result is a rearrangement of the array *)
  intros A comparefn.
  assert (Hinsert : forall x l r,
             insert comparefn x l = Returns r -> Permutation (x :: l) r).
  { intros x l. induction l as [| y l IH]; simpl; intros r H.
    - injection H as <-. apply Permutation_refl.
    - destruct (comparefn x y) as [v |]; simpl in H; [| discriminate].
      destruct (comparefn_verdict v).
      + injection H as <-. apply Permutation_refl.
      + injection H as <-. apply Permutation_refl.
      + destruct (insert comparefn x l) as [r' |]; simpl in H; [| discriminate].
        injection H as <-.
        apply Permutation_trans with (y :: x :: l).
        * apply perm_swap.
        * apply perm_skip. apply IH. reflexivity. }
  intros l. induction l as [| x l IH]; simpl; intros s H.
  - injection H as <-. apply perm_nil.
  - destruct (insertion_sort comparefn l) as [s' |]; simpl in H; [| discriminate].
    apply Permutation_trans with (x :: s').
    + apply perm_skip. apply IH. reflexivity.
    + apply Hinsert. exact H.
Qed.
Next Obligation.
  (* the sort returns when the comparator does *)
  intros A comparefn ok l Hc Hl.
  assert (Hinsert : forall x l, ok x -> Forall ok l ->
                                exists r, insert comparefn x l = Returns r).
  { intros x l0 Hx Hl0. induction Hl0 as [| y l0 Hy Hl0 IH]; simpl.
    - eexists. reflexivity.
    - destruct (Hc x y Hx Hy) as [v ->]. simpl.
      destruct (comparefn_verdict v); try (eexists; reflexivity).
      destruct IH as [r ->]. simpl. eexists. reflexivity. }
  induction Hl as [| x l Hx Hl IH]; simpl.
  - eexists. reflexivity.
  - destruct IH as [s Hs]. rewrite Hs. simpl.
    apply Hinsert; [exact Hx |].
    apply (Permutation_Forall (bare_engine_obligation_1 _ _ Hs)). exact Hl.
Qed.

(** An engine that sorts an array of any length as V8 sorts one of fewer
    than 64 elements (a table of 64 rows or more V8 would cut into several
    runs and merge them). *)
Program Definition binary_insertion_engine : Engine :=
  {| date_parse := fun _ => NaN;
     string_to_number := fun _ => NaN;
     array_sort := short_array_sort |}.
Next Obligation.
  (* the result is a rearrangement of the array *)
  intros A comparefn l s.
  assert (Hsplit : forall d l prev p,
             extend_run comparefn d prev l = Returns p -> l = fst p ++ snd p).
  { intros d l0. induction l0 as [| x l0 IH]; simpl; intros prev p H.
    - injection H as <-. reflexivity.
    - destruct (comparefn x prev) as [v |]; simpl in H; [| discriminate].
      destruct (Bool.eqb (negative v) d).
      + destruct (extend_run comparefn d x l0) as [q |] eqn:E; simpl in H;
          [| discriminate].
        injection H as <-. simpl. f_equal. apply (IH x). exact E.
      + injection H as <-. reflexivity. }
  assert (Hrun : forall p, count_and_make_run comparefn l = Returns p ->
                           Permutation l (fst p ++ snd p)).
  { unfold count_and_make_run. destruct l as [| a [| b l]]; intros p H.
    - injection H as <-. apply Permutation_refl.
    - injection H as <-. apply Permutation_refl.
    - destruct (comparefn b a) as [v |]; simpl in H; [| discriminate].
      destruct (extend_run comparefn (negative v) b l) as [q |] eqn:E;
        simpl in H; [| discriminate].
      injection H as <-. apply Hsplit in E. subst l. simpl fst. simpl snd.
      change (a :: b :: fst q ++ snd q) with ((a :: b :: fst q) ++ snd q).
      apply Permutation_app_tail.
      destruct (negative v); [apply Permutation_rev | apply Permutation_refl]. }
  assert (Hinsert : forall rest sorted,
             binary_insertion_sort comparefn sorted rest = Returns s ->
             Permutation (sorted ++ rest) s).
  { intros rest. induction rest as [| x rest IH]; simpl; intros sorted H.
    - injection H as <-. rewrite app_nil_r. apply Permutation_refl.
    - destruct (find_place comparefn (length sorted) x sorted 0 (length sorted))
        as [k |]; simpl in H; [| discriminate].
      apply IH in H. refine (Permutation_trans _ H).
      apply Permutation_trans with ((x :: sorted) ++ rest).
      + simpl. apply Permutation_sym, Permutation_middle.
      + apply Permutation_app_tail.
        rewrite <- (firstn_skipn k sorted) at 1. apply Permutation_middle. }
  unfold short_array_sort.
  destruct (count_and_make_run comparefn l) as [p |] eqn:E; simpl;
    [| discriminate].
  intros H. apply Permutation_trans with (fst p ++ snd p).
  - apply Hrun. reflexivity.
  - apply Hinsert, H.
Qed.
Next Obligation.
  (* the sort returns when the comparator does *)
  intros A comparefn ok l Hc Hl.
  assert (Hextend : forall d l prev, ok prev -> Forall ok l ->
                      exists p, extend_run comparefn d prev l = Returns p
                                /\ Forall ok (fst p) /\ Forall ok (snd p)).
  { intros d l0 prev Hp Hl0. revert prev Hp.
    induction Hl0 as [| x l0 Hx Hl0 IH]; simpl; intros prev Hp.
    - eexists. split; [reflexivity | split; constructor].
    - destruct (Hc x prev Hx Hp) as [v ->]. simpl.
      destruct (Bool.eqb (negative v) d).
      + destruct (IH x Hx) as [p [-> [H1 H2]]]. simpl.
        eexists. split; [reflexivity |]. simpl.
        split; [constructor |]; assumption.
      + eexists. split; [reflexivity |]. simpl.
        split; constructor; assumption. }
  assert (Hplace : forall fuel x sorted i j, ok x -> Forall ok sorted ->
                     exists k, find_place comparefn fuel x sorted i j = Returns k).
  { intros fuel x sorted i j Hx Hs. revert i j.
    induction fuel as [| fuel IH]; simpl; intros i j.
    - eexists. reflexivity.
    - destruct (i <? j); [| eexists; reflexivity].
      destruct (nth_error sorted (i + Nat.div2 (j - i))) as [y |] eqn:E;
        [| eexists; reflexivity].
      assert (Hy : ok y).
      { rewrite Forall_forall in Hs. apply Hs. apply (nth_error_In _ _ E). }
      destruct (Hc x y Hx Hy) as [v ->]. simpl.
      destruct (negative v); apply IH. }
  assert (Hinsert : forall rest sorted, Forall ok sorted -> Forall ok rest ->
                      exists s, binary_insertion_sort comparefn sorted rest
                                = Returns s).
  { intros rest sorted Hs Hr. revert sorted Hs.
    induction Hr as [| x rest Hx Hr IH]; simpl; intros sorted Hs.
    - eexists. reflexivity.
    - destruct (Hplace (length sorted) x sorted 0 (length sorted) Hx Hs)
        as [k ->]. simpl.
      apply IH. rewrite <- (firstn_skipn k sorted) in Hs.
      apply Forall_app in Hs. destruct Hs as [H1 H2].
      apply Forall_app. split; [exact H1 | constructor; assumption]. }
  unfold short_array_sort, count_and_make_run.
  destruct Hl as [| a l Ha Hl]; [apply (Hinsert [] []); constructor |].
  destruct Hl as [| b l Hb Hl];
    [apply (Hinsert [] [a]); repeat constructor; exact Ha |].
  destruct (Hc b a Hb Ha) as [v ->]. simpl.
  destruct (Hextend (negative v) l b Hb Hl) as [p [-> [H1 H2]]].
  cbn [bind fst snd].
  apply Hinsert; [| exact H2].
  assert (Hrun : Forall ok (a :: b :: fst p)) by (repeat constructor; assumption).
  destruct (negative v); [exact (Forall_rev Hrun) | exact Hrun].
Qed.

Definition text_input (n v : string) : Control :=
  {| name := Some n; value := v; widget_field := false |}.

(** The form of the end-to-end example: fields [year] and [_debug]. *)
Definition report_form (source : string) : Form :=
  {| data_filename_format := Some "table_year";
     data_source := Some source;
     inputs := [text_input "year" "2020"; text_input "_debug" "x"];
     widget_forms := [] |}.

Definition started (args : option Args) (form : Form) (evs : list Event)
  : option Instance :=
  match websheet args form with
  | Returns inst => Some (run (engine := bare_engine) inst evs)
  | TypeError => None
  end.

(** Options that ask for a failure markup of their own. *)
Definition oops_args : Args :=
  {| a_lang := None; a_init_sort_col := None; a_init_sort_desc := None;
     a_dl_title := None; a_loading := None; a_failed := Some "Oops";
     a_callback := None |}.

(** A response with a number column and a text column. *)
Definition ledger : RawTable :=
  {| rt_caption := None;
     rt_head := [ {| rh_class := Some "number"; rh_text := "Amount" |};
                  {| rh_class := None; rh_text := "Name" |} ];
     rt_body := [ ["3"; "c"]; ["n/a"; "a"]; ["1"; "b"] ] |}.

(** The request the form of the example makes. *)
Definition report_request : Request :=
  {| url := "https://x/r/year:2020/table_2020.xls";
     fieldsObj := [("year", "2020"); ("_debug", "x")] |}.

(** A form with the single field [a], whose value is ["1"]. *)
Definition single_form : Form :=
  {| data_filename_format := Some "table";
     data_source := Some "https://x/r/";
     inputs := [text_input "a" "1"];
     widget_forms := [] |}.

(** A response whose second row has no cell in the second column. *)
Definition short_row : RawTable :=
  {| rt_caption := None;
     rt_head := [ {| rh_class := None; rh_text := "Name" |};
                  {| rh_class := None; rh_text := "Note" |} ];
     rt_body := [ ["a"; "x"]; ["b"] ] |}.



(** A number column with a cell that cannot be read. *)
Definition amounts_table : Table :=
  {| t_caption := {| cap_html := ""; cap_href := ""; cap_title := "" |};
     t_head := [{| className := Some "number"; h_classes := ["number"];
                   h_text := "Amount" |}];
     t_rows :=
       List.map (materialize_row (engine := bare_engine) "en" [Some "number"])
                [["3"]; ["n/a"]; ["1"]] |}.

(** Seven labelled rows on a number column; the cell of the fifth cannot
    be read, those of [r3], [r5] and [r6] hold the same number. *)
Definition scores : Table :=
  {| t_caption := {| cap_html := ""; cap_href := ""; cap_title := "" |};
     t_head := [ {| className := Some "number"; h_classes := ["number"];
                    h_text := "Score" |};
                 {| className := None; h_classes := []; h_text := "Row" |} ];
     t_rows :=
       List.map (materialize_row (engine := bare_engine) "en"
                   [Some "number"; None])
                [ ["0"; "r0"]; ["0"; "r1"]; ["2"; "r2"]; ["1"; "r3"];
                  ["n/a"; "r4"]; ["1"; "r5"]; ["1"; "r6"] ] |}.


(** Three rows with a whole number each. *)
Definition counts : list Row :=
  List.map (fun q => {| r_cells := []; __data := [DNumber (Fin q)] |})
           [3%Q; 1%Q; 2%Q].


(** The entry of a row in the second column. *)
Definition label (r : Row) : option datum := nth_error (__data r) 1.

(* ===================================================================== *)
(** * Notions used to state what the code does *)
(* ===================================================================== *)

(** Case analysis over the 256 characters. *)
Ltac ascii_cases c :=
  destruct c as [[] [] [] [] [] [] [] []]; vm_compute;
  try reflexivity; try discriminate; auto.

(** A text of white space only. *)
Fixpoint is_blank (s : string) : bool :=
  match s with
  | EmptyString => true
  | String c s' => Js.is_space c && is_blank s'
  end.

(** A period or a hyphen: the date separators that are not white space. *)
Definition is_dot_or_dash (c : ascii) : bool :=
  (Js.code c =? 46) || (Js.code c =? 45).

(** Periods for hyphens and hyphens for periods. *)
Definition swap_dot_dash (c : ascii) : ascii :=
  if Js.code c =? 46 then "-"%char
  else if Js.code c =? 45 then "."%char
  else c.

(** A row the comparator of [sortType] puts in order at [colIndex]: an entry
    that converts to a number other than [NaN] for the numeric types, a
    string for the others. *)
Definition comparable {engine : Engine} (colIndex : nat)
    (sortType : option string) (r : Row) : Prop :=
  if is_numeric_type sortType
  then to_number (nth_error (__data r) colIndex) <> NaN
  else exists s, nth_error (__data r) colIndex = Some (DText s).

(** What an entry is worth to the comparator of the numeric types:
    [false] and [true] are 0 and 1, a Number and a date are their value, a
    string is the Number the engine reads in it; [NaN] and a missing entry
    are worth nothing. *)
Definition entry_number {engine : Engine} (d : option datum) : option Q :=
  match d with
  | Some (DBool false) => Some 0%Q
  | Some (DBool true) => Some 1%Q
  | Some (DNumber (Fin q)) => Some q
  | Some (DDate (Fin time)) => Some time
  | Some (DText s) =>
      match string_to_number s with
      | Fin q => Some q
      | NaN => None
      end
  | _ => None
  end.

(** How the entries of two rows at [colIndex] compare: by their numbers
    for the numeric types, otherwise by their texts in upper case,
    character code by character code. *)
Definition entry_order {engine : Engine} (colIndex : nat)
    (sortType : option string) (a b : Row) : comparison :=
  if is_numeric_type sortType then
    match entry_number (nth_error (__data a) colIndex),
          entry_number (nth_error (__data b) colIndex) with
    | Some x, Some y => (x ?= y)%Q
    | _, _ => Eq
    end
  else
    match nth_error (__data a) colIndex, nth_error (__data b) colIndex with
    | Some (DText s), Some (DText t) =>
        String.compare (Js.toUpperCase s) (Js.toUpperCase t)
    | _, _ => Eq
    end.

(** The entry of [a] is not after the entry of [b]. *)
Definition in_order {engine : Engine} (colIndex : nat)
    (sortType : option string) (a b : Row) : Prop :=
  entry_order colIndex sortType a b <> Gt.

(** A text of ASCII characters. *)
Fixpoint is_ascii (s : string) : bool :=
  match s with
  | EmptyString => true
  | String c s' => (Js.code c <? 128) && is_ascii s'
  end.

(** A value a Number can hold (binary64): an integer of at most 53 bits
    times a power of two. *)
Definition binary64 (q : Q) : Prop :=
  exists m e : Z,
    (Z.abs m < 2 ^ 53)%Z /\ (-1074 <= e <= 971)%Z
    /\ (q == inject_Z m * 2 ^ e)%Q.

(** A row whose entry at [colIndex] the model orders as the code does: a
    Number that is not [NaN] for the numeric types, a string of ASCII
    characters for the others. *)
Definition orderable {engine : Engine} (colIndex : nat)
    (sortType : option string) (r : Row) : Prop :=
  if is_numeric_type sortType
  then exists q, entry_number (nth_error (__data r) colIndex) = Some q
                 /\ binary64 q
  else exists s, nth_error (__data r) colIndex = Some (DText s)
                 /\ is_ascii s = true.

(** No chunk of the template of the instance names a member inherited from
    [Object.prototype]. *)
Definition plain_template (inst : Instance) : Prop :=
  forall c, In c (format (settings inst)) -> Obj.is_inherited c = false.

(* ===================================================================== *)
(** * What the specification says, in its own words *)
(* ===================================================================== *)

Module Spec.

(** "Normalize baseUrl to end with exactly one trailing slash." *)
Fixpoint strip_trailing_slashes (s : string) : string :=
  match s with
  | EmptyString => EmptyString
  | String c s' =>
      match strip_trailing_slashes s' with
      | EmptyString => if Ascii.eqb c "/" then EmptyString else String c EmptyString
      | rest => String c rest
      end
  end.

Definition normalize (baseUrl : string) : string :=
  (strip_trailing_slashes baseUrl ++ "/")%string.

Definition sanitize_name (n : string) : string := Js.filter Js.is_alnum n.

Definition sanitize_value (v : string) : string :=
  Js.filter (fun c => negb (Js.is_value_reserved c)) v.

(** A field gives a segment when its value is not empty and its name does
    not start with an underscore. *)
Definition contributes (field : string * string) : bool :=
  negb (String.eqb (snd field) "") && negb (Js.starts_with "_" (fst field)).

Definition segment (field : string * string) : string :=
  (sanitize_name (fst field) ++ ":" ++ sanitize_value (snd field) ++ "/")%string.

Definition segments (fields : list (string * string)) : string :=
  Js.concat (List.map segment (List.filter contributes fields)).

(** The value of the field named [k]: of the last one when several fields
    have the name. *)
Fixpoint field_value (fields : list (string * string)) (k : string)
  : option string :=
  match fields with
  | [] => None
  | (n, v) :: rest =>
      match field_value rest k with
      | Some v' => Some v'
      | None => if String.eqb n k then Some v else None
      end
  end.

Definition resolve (fields : list (string * string)) (token : string) : string :=
  match field_value fields token with
  | Some v => sanitize_value v
  | None => token
  end.

Definition filename (fields : list (string * string)) (template : string)
  : string :=
  (Js.concat (List.map (resolve fields) (Js.split_chunks template)) ++ ".xls")%string.

(** The URL of section 4.2, with the base normalized as the text says. *)
Definition build (baseUrl : string) (fields : list (string * string))
    (template : string) : string :=
  (normalize baseUrl ++ segments fields ++ filename fields template)%string.

(** The same with the base as the source prepares it: a slash is added
    when the last character is not one. *)
Definition with_slash (baseUrl : string) : string :=
  if Js.ends_with "/" baseUrl then baseUrl else (baseUrl ++ "/")%string.

Definition build_as_coded (baseUrl : string) (fields : list (string * string))
    (template : string) : string :=
  (with_slash baseUrl ++ segments fields ++ filename fields template)%string.

(** The persisted SortState is reapplied when "the column index AND header
    label both match the freshly materialized header at that index". *)
Definition reapplied (inst : Instance) (head : list RawHeader) : bool :=
  match __websheet_sort_col inst, __websheet_sort_title inst with
  | Some c, Some label =>
      match nth_error head c with
      | Some h => String.eqb label (rh_text h)
      | None => false
      end
  | _, _ => false
  end.

(** The sort a reload uses: the persisted one when reapplied, otherwise
    the configured initial one. *)
Definition reload_sort (inst : Instance) (head : list RawHeader) : nat * bool :=
  if reapplied inst head
  then (match __websheet_sort_col inst with Some c => c | None => 0 end,
        match __websheet_sort_desc inst with Some d => d | None => false end)
  else (init_sort_col (settings inst), init_sort_desc (settings inst)).

(** "Replace commas with periods": every comma. *)
Definition commas_to_periods (s : string) : string :=
  Js.map (fun c => if Ascii.eqb c "," then "."%char else c) s.

(** What the text asks of a fetch that brought no table, from the state
    [before] to the state [after]: the failure markup is shown and the
    stored FormState has not moved. *)
Definition no_table_found (failure_markup : string) (before after : Instance)
  : Prop :=
  div after = Markup failure_markup /\ getState after = getState before.

(** One step of the header click state machine, from [before] to [after],
    on the header at [i] with direction [desc]: the rows were sorted with
    the new parameters, the sort state was persisted with the header's
    label, and the header at [i] is the one header that carries a marker,
    the marker of the direction. *)
Definition clicked {engine : Engine} (i : nat) (desc : bool)
    (before after : Instance) : Prop :=
  exists tb ta hb ha,
    div before = Shown tb /\ div after = Shown ta
    /\ nth_error (t_head tb) i = Some hb
    /\ nth_error (t_head ta) i = Some ha
    /\ sort_rows (t_rows tb) i desc (className hb) = Returns (t_rows ta)
    /\ __websheet_sort_col after = Some i
    /\ __websheet_sort_desc after = Some desc
    /\ __websheet_sort_title after = Some (h_text hb)
    /\ Dom.count_marked ta = 1
    /\ Dom.hasClass (order_class desc) (h_classes ha) = true.

(** The header at [i] of the table shown is not the active one. *)
Definition inactive (i : nat) (inst : Instance) : Prop :=
  forall t h, div inst = Shown t -> nth_error (t_head t) i = Some h ->
              Dom.marked h = false.

End Spec.

(* ===================================================================== *)
(** * The model on small inputs *)
(* ===================================================================== *)

Example stringToFloat_fr_sample :
  stringToFloat "1 234,50 $" "fr" = Fin (2469 # 2).
Proof. vm_compute. reflexivity. Qed.

Example stringToFloat_en_sample :
  stringToFloat "$1,234.50" "en" = Fin (2469 # 2).
Proof. vm_compute. reflexivity. Qed.

Example split_sample :
  Js.split_chunks "table_year" = ["table"; "_"; "year"]
  /\ Js.split_chunks "_a--b." = [""; "_"; "a"; "--"; "b"; "."; ""]
  /\ Js.class_tokens " number  right " = ["number"; "right"]
  /\ Js.trim "  a b  " = "a b"
  /\ Js.replace_runs Js.is_date_separator "/" "2013 - 08.15" = "2013/08/15".
Proof. vm_compute. repeat split. Qed.

(* ===================================================================== *)
(** * The Value Parser *)
(* ===================================================================== *)

Section ValueParser.

Context {engine : Engine}.

Lemma replace_first_all (s : string) :
  Js.count "," s <= 1 ->
  Js.replace_first "," "." s = Spec.commas_to_periods s.
Proof.
  unfold Spec.commas_to_periods.
  induction s as [| c s IH]; simpl; intros H.
  - reflexivity.
  - destruct (Ascii.eqb c ",") eqn:E.
    + f_equal. simpl in H.
      assert (H0 : Js.count "," s = 0) by lia.
      clear IH H. induction s as [| d s IH]; simpl in *.
      * reflexivity.
      * destruct (Ascii.eqb d ","); [discriminate |].
        f_equal. apply IH. exact H0.
    + f_equal. apply IH. simpl in H. exact H.
Qed.

Lemma type_cell_number (lang0 : string) (cls : option string) (text : string) :
  is_class "number" cls = true \/ is_class "amount" cls = true ->
  type_cell lang0 cls text = DNumber (stringToFloat text lang0).
Proof.
  intros H. unfold type_cell.
  assert (Hb : is_class "bool" cls = false).
  { destruct cls as [c |]; simpl in *; [| destruct H; discriminate].
    destruct H as [H | H]; apply String.eqb_eq in H; subst; reflexivity. }
  rewrite Hb.
  destruct H as [H | H]; rewrite H; [| rewrite orb_true_r]; reflexivity.
Qed.

(** C2, amended.  Under [fr] a number cell is read by replacing its comma
    (text with at most one comma: the decimal separator) with a period,
    keeping the characters of [0-9+-.] and handing the rest to
    [parseFloat], which reads the longest numeric prefix.  For ["1,234.50"]
    this prefix is [1.234]. *)
Theorem parse_number_fr_decimal_comma (cls : option string) (text : string) :
  is_class "number" cls = true \/ is_class "amount" cls = true ->
  Js.count "," text <= 1 ->
  type_cell "fr" cls text =
    DNumber (ParseFloat.parseFloat
               (Js.filter Js.is_numeric_char (Spec.commas_to_periods text)))
  /\ type_cell "fr" (Some "number") "1,234.50" = DNumber (Fin (617 # 500)).
Proof.
  intros Hk Hc. split.
  - rewrite (type_cell_number _ _ _ Hk). unfold stringToFloat. simpl.
    rewrite (replace_first_all _ Hc). reflexivity.
  - vm_compute. reflexivity.
Qed.

End ValueParser.

Lemma parse_number_fr_decimal_comma_witness :
  Js.filter Js.is_numeric_char (Spec.commas_to_periods "1,234.50") = "1.234.50"
  /\ type_cell (engine := bare_engine) "fr" (Some "number") "1,234.50" =
       DNumber (ParseFloat.parseFloat
                  (Js.filter Js.is_numeric_char
                     (Spec.commas_to_periods "1,234.50"))).
Proof.
  split.
  - vm_compute. reflexivity.
  - apply (parse_number_fr_decimal_comma (engine := bare_engine)
             (Some "number") "1,234.50").
    + left. reflexivity.
    + simpl. lia.
Defined.

(** C2 as stated fails: under [fr] the text ["1,234.50"] does not give
    1234.50. *)
Lemma parse_number_fr_sample_is_not_1234_50 :
  ~ (exists q : Q,
        type_cell (engine := bare_engine) "fr" (Some "number") "1,234.50"
          = DNumber (Fin q)
        /\ (q == 2469 # 2)%Q).
Proof.
  intros [q [H Hq]]. vm_compute in H. injection H as <-.
  vm_compute in Hq. discriminate Hq.
Qed.

(* ===================================================================== *)
(** * The Sort Engine *)
(* ===================================================================== *)

Section InsertionSort.

Variable A : Type.
Variable comparefn : A -> A -> outcome number.

Lemma insert_keeps_group (tie : A -> bool) (x : A) (l r : list A) :
  tie_group comparefn tie ->
  insert comparefn x l = Returns r ->
  List.filter tie r = List.filter tie (x :: l).
Proof.
  intros Hg. revert r. induction l as [| y l IH]; simpl; intros r H.
  - injection H as <-. reflexivity.
  - destruct (comparefn x y) as [v |] eqn:Hc; simpl in H; [| discriminate].
    destruct (comparefn_verdict v) eqn:Hv.
    + injection H as <-. reflexivity.
    + injection H as <-. reflexivity.
    + destruct (insert comparefn x l) as [r' |]; simpl in H; [| discriminate].
      injection H as <-. simpl.
      specialize (IH r' eq_refl). simpl in IH.
      destruct (tie x) eqn:Tx, (tie y) eqn:Ty; rewrite IH; try reflexivity.
      rewrite (Hg x y Tx Ty v Hc) in Hv. discriminate.
Qed.

Lemma insertion_sort_keeps_group (tie : A -> bool) (l s : list A) :
  tie_group comparefn tie ->
  insertion_sort comparefn l = Returns s ->
  List.filter tie s = List.filter tie l.
Proof.
  intros Hg. revert s. induction l as [| x l IH]; simpl; intros s H.
  - injection H as <-. reflexivity.
  - destruct (insertion_sort comparefn l) as [s' |]; simpl in H; [| discriminate].
    rewrite (insert_keeps_group x s' Hg H). simpl.
    rewrite (IH s' eq_refl). reflexivity.
Qed.

(** The comparator reads a pair in one way. *)
Lemma reads_once (a b : A) (c c' : comparison) :
  reads comparefn a b c -> reads comparefn a b c' -> c = c'.
Proof.
  intros [q [Hq Hc]] [q' [Hq' Hc']]. rewrite Hq in Hq'.
  injection Hq' as <-. congruence.
Qed.

(** A consistent comparator that puts [a] after [b] does not put [b]
    after [a]. *)
Lemma consistent_opposite (l : list A) (a b : A) (v : number) :
  consistent comparefn l -> In a l -> In b l ->
  comparefn a b = Returns v -> comparefn_verdict v = Gt ->
  not_greater comparefn b a.
Proof.
  intros [Htotal [Hrefl [_ Htrans]]] Ha Hb Hab Hgt v' Hba Hgt'.
  assert (Rab : reads comparefn a b Gt).
  { destruct (Htotal a b Ha Hb) as [c [q [Hq Hc]]].
    rewrite Hab in Hq. injection Hq as ->. exists q. split; assumption. }
  assert (Rba : reads comparefn b a Gt).
  { destruct (Htotal b a Hb Ha) as [c [q [Hq Hc]]].
    rewrite Hba in Hq. injection Hq as ->. exists q. split; assumption. }
  pose proof (Htrans Gt a b a Ha Hb Ha Rab Rba) as Raa.
  pose proof (reads_once Raa (Hrefl a Ha)) as E. discriminate E.
Qed.

Section InOrder.

Variable ok : A -> Prop.

Hypothesis opposite :
  forall a b v, ok a -> ok b ->
  comparefn a b = Returns v -> comparefn_verdict v = Gt ->
  not_greater comparefn b a.

Lemma insert_head (x y : A) (l r : list A) :
  insert comparefn x l = Returns r ->
  HdRel (not_greater comparefn) y l -> not_greater comparefn y x ->
  HdRel (not_greater comparefn) y r.
Proof.
  intros Hr Hl Hx. destruct l as [| z l]; simpl in Hr.
  - injection Hr as <-. constructor. exact Hx.
  - destruct (comparefn x z) as [v |]; simpl in Hr; [| discriminate].
    destruct (comparefn_verdict v);
      try (injection Hr as <-; constructor; exact Hx).
    destruct (insert comparefn x l) as [r' |]; simpl in Hr; [| discriminate].
    injection Hr as <-. constructor. inversion Hl; assumption.
Qed.

Lemma insert_sorted (x : A) (l r : list A) :
  ok x -> Forall ok l -> Sorted (not_greater comparefn) l ->
  insert comparefn x l = Returns r -> Sorted (not_greater comparefn) r.
Proof.
  intros Hx Hok. revert r. induction Hok as [| y l Hy Hok IH]; intros r Hs Hr.
  - simpl in Hr. injection Hr as <-. repeat constructor.
  - simpl in Hr. destruct (comparefn x y) as [v |] eqn:Hc; simpl in Hr;
      [| discriminate].
    assert (Hxy : comparefn_verdict v <> Gt -> HdRel (not_greater comparefn) x (y :: l)).
    { intros Hv. constructor. intros v' Hv'. rewrite Hc in Hv'.
      injection Hv' as <-. exact Hv. }
    destruct (comparefn_verdict v) eqn:Hv.
    + injection Hr as <-. constructor; [exact Hs | apply Hxy; discriminate].
    + injection Hr as <-. constructor; [exact Hs | apply Hxy; discriminate].
    + destruct (insert comparefn x l) as [r' |] eqn:Hi; simpl in Hr;
        [| discriminate].
      injection Hr as <-. inversion Hs as [| ? ? Hs' Hhd]; subst.
      constructor.
      * apply IH; [exact Hs' | reflexivity].
      * apply (@insert_head x y l r' Hi Hhd). apply (@opposite x y v Hx Hy Hc Hv).
Qed.

Lemma insertion_sort_sorted (l s : list A) :
  Forall ok l -> insertion_sort comparefn l = Returns s ->
  Sorted (not_greater comparefn) s.
Proof.
  intros Hok. revert s. induction Hok as [| x l Hx Hok IH]; intros s Hs.
  - simpl in Hs. injection Hs as <-. constructor.
  - simpl in Hs. destruct (insertion_sort comparefn l) as [s' |] eqn:Hs';
      simpl in Hs; [| discriminate].
    apply (@insert_sorted x s' s Hx); [| apply IH; reflexivity | exact Hs].
    apply (Permutation_Forall
             (array_sort_permutation (Engine := bare_engine) comparefn l Hs') Hok).
Qed.

End InOrder.

End InsertionSort.

(** The plain insertion sort is a sort as the standard asks. *)
Lemma bare_engine_standard : standard_sort bare_engine.
Proof.
  intros A comparefn l s Hcons Hs.
  change (insertion_sort comparefn l = Returns s) in Hs. split.
  - apply (@insertion_sort_sorted A comparefn (fun a => In a l)) with (l := l);
      [| apply Forall_forall; trivial | exact Hs].
    intros a b v Ha Hb. apply (@consistent_opposite A comparefn l a b v Hcons Ha Hb).
  - intros tie Hg. apply (insertion_sort_keeps_group _ Hg Hs).
Qed.

Section ListFacts.

Variable A : Type.



Variable R : A -> A -> Prop.



End ListFacts.

Section ConsistentFacts.

Variable A : Type.
Variable comparefn : A -> A -> outcome number.
Variable universe : list A.
Hypothesis Hcons : consistent comparefn universe.







End ConsistentFacts.

Section BinaryInsertionFacts.

Variable A : Type.
Variable comparefn : A -> A -> outcome number.
Variable universe : list A.
Hypothesis Hcons : consistent comparefn universe.


End BinaryInsertionFacts.

Section BinaryInsertionSorts.

Variable A : Type.
Variable comparefn : A -> A -> outcome number.
Variable universe : list A.
Hypothesis Hcons : consistent comparefn universe.








End BinaryInsertionSorts.


Lemma Qcompare_difference (x y : Q) : (Qred (x - y) ?= 0)%Q = (x ?= y)%Q.
Proof.
  destruct (x ?= y)%Q eqn:E.
  - apply Qeq_alt in E. apply (proj1 (Qeq_alt _ _)).
    rewrite Qred_correct. lra.
  - apply Qlt_alt in E. apply (proj1 (Qlt_alt _ _)).
    rewrite Qred_correct. lra.
  - apply Qgt_alt in E. apply (proj1 (Qgt_alt _ _)).
    rewrite Qred_correct. lra.
Qed.

Lemma Qcompare_same (x : Q) : (x ?= x)%Q = Eq.
Proof. apply (proj1 (Qeq_alt _ _)). reflexivity. Qed.

Lemma Qcompare_chain (c : comparison) (x y z : Q) :
  (x ?= y)%Q = c -> (y ?= z)%Q = c -> (x ?= z)%Q = c.
Proof.
  destruct c; intros H1 H2.
  - apply Qeq_alt in H1, H2. apply (proj1 (Qeq_alt _ _)). lra.
  - apply Qlt_alt in H1, H2. apply (proj1 (Qlt_alt _ _)). lra.
  - apply Qgt_alt in H1, H2. apply (proj1 (Qgt_alt _ _)). lra.
Qed.

Lemma string_compare_same (s : string) : String.compare s s = Eq.
Proof. apply (proj2 (OrderedTypeEx.String_as_OT.cmp_eq s s)). reflexivity. Qed.

Lemma string_compare_chain (c : comparison) (s t u : string) :
  String.compare s t = c -> String.compare t u = c -> String.compare s u = c.
Proof.
  assert (Hlt : forall a b d, String.compare a b = Lt -> String.compare b d = Lt ->
                              String.compare a d = Lt).
  { intros a b d H1 H2.
    apply (proj1 (OrderedTypeEx.String_as_OT.cmp_lt a b)) in H1.
    apply (proj1 (OrderedTypeEx.String_as_OT.cmp_lt b d)) in H2.
    apply (proj2 (OrderedTypeEx.String_as_OT.cmp_lt a d)).
    apply (OrderedTypeEx.String_as_OT.lt_trans a b d H1 H2). }
  destruct c; intros H1 H2.
  - apply String.compare_eq_iff in H1, H2. subst. apply string_compare_same.
  - apply (Hlt s t u H1 H2).
  - rewrite String.compare_antisym in H1, H2 |- *.
    destruct (String.compare t s) eqn:E1; try discriminate H1.
    destruct (String.compare u t) eqn:E2; try discriminate H2.
    rewrite (Hlt u t s E2 E1). reflexivity.
Qed.

Section SortEngine.

Context {engine : Engine}.

Lemma comparator_returns (c : nat) (k : option string) (a b : Row) :
  sortable c k a -> sortable c k b ->
  exists v, comparator c k a b = Returns v.
Proof.
  unfold sortable, comparator. intros Ha Hb.
  destruct (is_numeric_type k).
  - eexists. reflexivity.
  - destruct Ha as [Ha | [sa Ha]]; [discriminate |].
    destruct Hb as [Hb | [sb Hb]]; [discriminate |].
    unfold compare_text. rewrite Ha, Hb. simpl.
    destruct (String.compare _ _); eexists; reflexivity.
Qed.

Lemma sort_rows_returns (rows : list Row) (c : nat) (d : bool)
    (k : option string) :
  Forall (sortable c k) rows ->
  exists rows', sort_rows rows c d k = Returns rows'
                /\ Forall (sortable c k) rows'.
Proof.
  intros H. unfold sort_rows.
  destruct (array_sort_returns (comparator c k) (comparator_returns (k := k)) H)
    as [s Hs].
  rewrite Hs. simpl. eexists. split; [reflexivity |].
  pose proof (Permutation_Forall (array_sort_permutation _ _ Hs) H) as Hf.
  destruct d; [| exact Hf].
  apply (Permutation_Forall (Permutation_rev s) Hf).
Qed.

(** The Number an entry converts to is its worth. *)
Lemma to_number_entry (d : option datum) :
  to_number d = match entry_number d with Some q => Fin q | None => NaN end.
Proof.
  destruct d as [[[] | [| q] | [| t] | s] |]; simpl; try reflexivity.
  destruct (string_to_number s); reflexivity.
Qed.

Lemma comparable_sortable (c : nat) (k : option string) (r : Row) :
  comparable c k r -> sortable c k r.
Proof.
  unfold comparable, sortable. destruct (is_numeric_type k).
  - intros _. left. reflexivity.
  - intros H. right. exact H.
Qed.

(** On rows it can order the comparator says what [entry_order] says. *)
Lemma comparator_reads (c : nat) (k : option string) (a b : Row) :
  comparable c k a -> comparable c k b ->
  reads (comparator c k) a b (entry_order c k a b).
Proof.
  unfold comparable, comparator, entry_order. destruct (is_numeric_type k).
  - intros Ha Hb. unfold compare_numeric, reads.
    rewrite to_number_entry in Ha, Hb. rewrite !to_number_entry.
    destruct (entry_number (nth_error (__data a) c)) as [x |];
      [| exfalso; apply Ha; reflexivity].
    destruct (entry_number (nth_error (__data b) c)) as [y |];
      [| exfalso; apply Hb; reflexivity].
    exists (Qred (x - y)). split; [reflexivity | apply Qcompare_difference].
  - intros [sa Ha] [sb Hb]. unfold reads, compare_text. rewrite Ha, Hb. simpl.
    destruct (String.compare _ _); eexists; split; reflexivity.
Qed.

Lemma entry_order_same (c : nat) (k : option string) (a : Row) :
  entry_order c k a a = Eq.
Proof.
  unfold entry_order. destruct (is_numeric_type k).
  - destruct (entry_number _); [apply Qcompare_same | reflexivity].
  - destruct (nth_error (__data a) c) as [[| | | s] |]; try reflexivity.
    apply string_compare_same.
Qed.

Lemma entry_order_opposite (c : nat) (k : option string) (a b : Row) :
  entry_order c k b a = CompOpp (entry_order c k a b).
Proof.
  unfold entry_order. destruct (is_numeric_type k).
  - destruct (entry_number (nth_error (__data a) c)) as [x |],
             (entry_number (nth_error (__data b) c)) as [y |];
      try reflexivity.
    apply eq_sym, Qcompare_antisym.
  - destruct (nth_error (__data a) c) as [[| | | s] |],
             (nth_error (__data b) c) as [[| | | t] |]; try reflexivity.
    apply String.compare_antisym.
Qed.

Lemma entry_order_chain (c : nat) (k : option string) (o : comparison)
    (a b d : Row) :
  comparable c k b ->
  entry_order c k a b = o -> entry_order c k b d = o ->
  entry_order c k a d = o.
Proof.
  unfold comparable, entry_order. destruct (is_numeric_type k).
  - rewrite to_number_entry. intros Hb.
    destruct (entry_number (nth_error (__data b) c)) as [y |];
      [| exfalso; apply Hb; reflexivity].
    destruct (entry_number (nth_error (__data a) c)) as [x |];
      [| intros <- _; reflexivity].
    destruct (entry_number (nth_error (__data d) c)) as [z |];
      [apply Qcompare_chain | intros _ H; exact H].
  - intros [t Hb]. rewrite Hb.
    destruct (nth_error (__data a) c) as [[| | | s] |];
      try (intros <- _; reflexivity).
    destruct (nth_error (__data d) c) as [[| | | u] |];
      try (intros _ H; exact H).
    apply string_compare_chain.
Qed.

(** The comparator is consistent for rows whose entries it can order. *)
Lemma comparator_consistent (c : nat) (k : option string) (rows : list Row) :
  Forall (comparable c k) rows -> consistent (comparator c k) rows.
Proof.
  intros H. rewrite Forall_forall in H.
  assert (Hr : forall a b, In a rows -> In b rows ->
                 reads (comparator c k) a b (entry_order c k a b)).
  { intros a b Ha Hb. apply comparator_reads; auto. }
  split; [| split; [| split]].
  - intros a b Ha Hb. exists (entry_order c k a b). auto.
  - intros a Ha. rewrite <- (entry_order_same c k a). auto.
  - intros a b Ha Hb Hab.
    pose proof (reads_once Hab (Hr a b Ha Hb)) as E.
    pose proof (Hr b a Hb Ha) as Hba.
    rewrite entry_order_opposite, <- E in Hba. exact Hba.
  - intros o a b d Ha Hb Hd Hab Hbd.
    pose proof (reads_once Hab (Hr a b Ha Hb)) as E1.
    pose proof (reads_once Hbd (Hr b d Hb Hd)) as E2.
    rewrite <- (@entry_order_chain c k o a b d (H b Hb) (eq_sym E1) (eq_sym E2)).
    auto.
Qed.


Lemma compare_numeric_tie (c : nat) (a b : Row) :
  to_number (nth_error (__data a) c) = NaN
  \/ to_number (nth_error (__data b) c) = NaN ->
  compare_numeric c a b = Returns NaN.
Proof.
  unfold compare_numeric. intros [H | H]; rewrite H.
  - reflexivity.
  - destruct (to_number (nth_error (__data a) c)); reflexivity.
Qed.

Lemma numeric_sort_returns (rows : list Row) (c : nat) (k : option string) :
  is_numeric_type k = true ->
  exists s, array_sort (comparator c k) rows = Returns s.
Proof.
  intros Hk. apply array_sort_returns with (ok := fun _ : Row => True).
  - intros a b _ _. unfold comparator. rewrite Hk. eexists. reflexivity.
  - apply Forall_forall. trivial.
Qed.

(** C6.  Under the comparator of the types [bool], [number], [amount] and
    [date], a row whose entry converts to [NaN] (a number that could not be
    read, an invalid date, a missing entry) is a tie with every row, on
    either side, and [sortTable] returns whatever the rows are. *)
Theorem numeric_comparator_ties_on_NaN
    (table : Table) (colIndex : nat) (descending : bool)
    (sortType : option string) (a b : Row) :
  is_numeric_type sortType = true ->
  to_number (nth_error (__data a) colIndex) = NaN ->
  (exists v, comparator colIndex sortType a b = Returns v
             /\ comparefn_verdict v = Eq)
  /\ (exists v, comparator colIndex sortType b a = Returns v
                /\ comparefn_verdict v = Eq)
  /\ snd (sortTable table colIndex descending sortType) = Returns tt
  /\ Permutation (t_rows table)
       (t_rows (fst (sortTable table colIndex descending sortType))).
Proof.
  intros Hk Hn. unfold comparator. rewrite Hk.
  split; [| split].
  - exists NaN. split; [| reflexivity].
    apply compare_numeric_tie. left. exact Hn.
  - exists NaN. split; [| reflexivity].
    apply compare_numeric_tie. right. exact Hn.
  - destruct (numeric_sort_returns (t_rows table) colIndex sortType Hk)
      as [s Hs].
    unfold sortTable, sort_rows. rewrite Hs. simpl. split; [reflexivity |].
    pose proof (array_sort_permutation _ _ Hs) as Hp.
    destruct descending.
    + apply Permutation_trans with s; [exact Hp | apply Permutation_rev].
    + exact Hp.
Qed.

End SortEngine.





(** The same rows under the plain insertion sort: there the three rows
    keep their order.  With an unreadable cell the order of the result is
    the engine's. *)
Example unread_cell_under_plain_insertion :
  List.map label
    (t_rows (fst (sortTable (engine := bare_engine) scores 0 false
                    (Some "number"))))
  = List.map (fun l => Some (DText l))
      ["r0"; "r1"; "r3"; "r2"; "r4"; "r5"; "r6"].
Proof. vm_compute. reflexivity. Qed.

Lemma numeric_comparator_ties_on_NaN_witness :
  let unread := materialize_row (engine := bare_engine) "en" [Some "number"] ["n/a"] in
  let three := materialize_row (engine := bare_engine) "en" [Some "number"] ["3"] in
  __data unread = [DNumber NaN]
  /\ (exists v, comparator (engine := bare_engine) 0 (Some "number") unread three
                  = Returns v /\ comparefn_verdict v = Eq)
  /\ (exists v, comparator (engine := bare_engine) 0 (Some "number") three unread
                  = Returns v /\ comparefn_verdict v = Eq)
  /\ snd (sortTable (engine := bare_engine) amounts_table 0 false (Some "number"))
     = Returns tt.
Proof.
  intros unread three.
  destruct (@numeric_comparator_ties_on_NaN bare_engine
              amounts_table 0 false (Some "number") unread three
              eq_refl eq_refl) as [H1 [H2 [H3 _]]].
  split; [vm_compute; reflexivity |].
  split; [exact H1 |]. split; [exact H2 | exact H3].
Defined.

(* ===================================================================== *)
(** * The instance over its events *)
(* ===================================================================== *)

Lemma append_assoc (a b c : string) :
  ((a ++ b) ++ c = a ++ (b ++ c))%string.
Proof. induction a as [| x a IH]; simpl; [reflexivity | now rewrite IH]. Qed.

Lemma append_nil_r (a : string) : (a ++ "" = a)%string.
Proof. induction a as [| x a IH]; simpl; [reflexivity | now rewrite IH]. Qed.

Lemma concat_cons (x : string) (l : list string) :
  Js.concat (x :: l) = (x ++ Js.concat l)%string.
Proof.
  unfold Js.concat. destruct l as [| y l]; simpl.
  - now rewrite append_nil_r.
  - reflexivity.
Qed.

Lemma filter_ext (p q : ascii -> bool) (s : string) :
  (forall c, p c = q c) -> Js.filter p s = Js.filter q s.
Proof.
  intros H. induction s as [| c s IH]; simpl; [reflexivity |].
  rewrite H, IH. reflexivity.
Qed.

Section Lifetime.

Context {engine : Engine}.

Lemma submit_settings (inst : Instance) :
  settings (fst (submit inst)) = settings inst.
Proof.
  unfold submit.
  destruct (fold_left each_field (serializeArray inst)
              (base_url (settings inst), Obj.empty)) as [u o].
  destruct (each_chunk o (format (settings inst)) u) as [u' [[] |]];
    reflexivity.
Qed.

Lemma submit_last_submit (inst : Instance) :
  last_submit (fst (submit inst)) = last_submit inst.
Proof.
  unfold submit.
  destruct (fold_left each_field (serializeArray inst)
              (base_url (settings inst), Obj.empty)) as [u o].
  destruct (each_chunk o (format (settings inst)) u) as [u' [[] |]];
    reflexivity.
Qed.

Lemma run_callback_settings (inst : Instance) :
  settings (run_callback inst) = settings inst.
Proof. unfold run_callback. destruct (callback (settings inst)); reflexivity. Qed.

Lemma run_callback_div (inst : Instance) :
  div (run_callback inst) = div inst.
Proof. unfold run_callback. destruct (callback (settings inst)); reflexivity. Qed.

Lemma run_callback_last_submit (inst : Instance) :
  last_submit (run_callback inst) = last_submit inst.
Proof. unfold run_callback. destruct (callback (settings inst)); reflexivity. Qed.

Lemma run_callback_pending (inst : Instance) :
  pending (run_callback inst) = pending inst.
Proof. unfold run_callback. destruct (callback (settings inst)); reflexivity. Qed.

Lemma success_settings (inst : Instance) (req : Request) (data : Document) :
  settings (fst (success inst req data)) = settings inst.
Proof.
  unfold success.
  destruct (scan_headers inst _) as [[sc sd] classes].
  destruct data as [raw |]; simpl.
  - match goal with
    | |- context [sortTable ?t ?c ?d ?k] => destruct (sortTable t c d k) as [t' [[] |]]
    end; simpl; rewrite run_callback_settings; reflexivity.
  - rewrite run_callback_settings. reflexivity.
Qed.

Lemma click_settings (inst : Instance) (i : nat) :
  settings (fst (click inst i)) = settings inst.
Proof.
  unfold click. destruct (div inst) as [| table]; [reflexivity |].
  destruct (nth_error (t_head table) i) as [h |]; [| reflexivity].
  match goal with
  | |- context [sortTable ?t ?c ?d ?k] => destruct (sortTable t c d k) as [t' [[] |]]
  end; reflexivity.
Qed.

Lemma click_last_submit (inst : Instance) (i : nat) :
  last_submit (fst (click inst i)) = last_submit inst.
Proof.
  unfold click. destruct (div inst) as [| table]; [reflexivity |].
  destruct (nth_error (t_head table) i) as [h |]; [| reflexivity].
  match goal with
  | |- context [sortTable ?t ?c ?d ?k] => destruct (sortTable t c d k) as [t' [[] |]]
  end; reflexivity.
Qed.

Lemma setState_settings (inst : Instance) (data : Obj.t) :
  settings (fst (fst (setState inst data))) = settings inst.
Proof.
  unfold setState.
  destruct (each_inputs false data _) as [[c1 d1] cs1].
  destruct (each_widget c1 d1 _) as [c2 d2].
  match goal with
  | |- context [submit ?i] =>
      pose proof (submit_settings i) as H; destruct (submit i) as [i' [[] |]]
  end; simpl in *; exact H.
Qed.

Lemma setState_last_submit (inst : Instance) (data : Obj.t) :
  last_submit (fst (fst (setState inst data))) = last_submit inst.
Proof.
  unfold setState.
  destruct (each_inputs false data _) as [[c1 d1] cs1].
  destruct (each_widget c1 d1 _) as [c2 d2].
  match goal with
  | |- context [submit ?i] =>
      pose proof (submit_last_submit i) as H; destruct (submit i) as [i' [[] |]]
  end; simpl in *; exact H.
Qed.

(** The settings of an instance never change. *)
Lemma step_settings (inst : Instance) (ev : Event) :
  settings (step inst ev) = settings inst.
Proof.
  destruct ev as [| n data | n | i | data]; simpl.
  - apply submit_settings.
  - destruct (take_out n (pending inst)) as [[req others] |]; [| reflexivity].
    rewrite success_settings. reflexivity.
  - destruct (take_out n (pending inst)) as [[req others] |]; reflexivity.
  - apply click_settings.
  - apply setState_settings.
Qed.

Lemma run_settings (evs : list Event) (inst : Instance) :
  settings (run inst evs) = settings inst.
Proof.
  unfold run. revert inst. induction evs as [| ev evs IH]; simpl; intros inst.
  - reflexivity.
  - rewrite IH. apply step_settings.
Qed.

(** Only [success] writes [last_submit]. *)
Lemma step_last_submit (inst : Instance) (ev : Event) :
  is_success ev = false -> last_submit (step inst ev) = last_submit inst.
Proof.
  destruct ev as [| n data | n | i | data]; simpl; intros H.
  - apply submit_last_submit.
  - discriminate H.
  - destruct (take_out n (pending inst)) as [[req others] |]; reflexivity.
  - apply click_last_submit.
  - apply setState_last_submit.
Qed.

End Lifetime.

(* ===================================================================== *)
(** * The State Sync Controller: [getState] *)
(* ===================================================================== *)

Lemma websheet_initial (args : option Args) (form : Form) (inst : Instance) :
  websheet args form = Returns inst ->
  last_submit inst = Obj.empty
  /\ pending inst = []
  /\ div inst = Markup ""
  /\ failed (settings inst) = "An error occured while attempting to load data."
  /\ exists source template,
       data_source form = Some source
       /\ data_filename_format form = Some template
       /\ base_url (settings inst) = Spec.with_slash source
       /\ format (settings inst) = Js.split_chunks template.
Proof.
  unfold websheet. intros H.
  destruct (data_filename_format form) as [template |]; [| discriminate].
  destruct (data_source form) as [source |]; [| discriminate].
  injection H as <-. simpl. repeat split.
  exists source, template. repeat split.
Qed.

Section GetState.

Context {engine : Engine}.

Lemma run_last_submit (evs : list Event) (inst : Instance) :
  forallb (fun ev => negb (is_success ev)) evs = true ->
  last_submit (run inst evs) = last_submit inst.
Proof.
  unfold run. revert inst. induction evs as [| ev evs IH]; simpl; intros inst H.
  - reflexivity.
  - apply andb_prop in H. destruct H as [Hev Hevs].
    rewrite (IH _ Hevs). apply step_last_submit.
    apply negb_true_iff. exact Hev.
Qed.

(** C10.  From the initialisation of an instance until a [success]
    callback runs, whatever else happens (submissions, failed fetches,
    clicks, [setState]), [getState] returns the object without keys the
    initialisation stored. *)
Theorem getState_empty_before_first_success
    (args : option Args) (form : Form) (inst : Instance) (evs : list Event) :
  websheet args form = Returns inst ->
  forallb (fun ev => negb (is_success ev)) evs = true ->
  getState (run inst evs) = Obj.empty.
Proof.
  intros Hinit Hevs. unfold getState.
  rewrite (run_last_submit _ _ Hevs).
  apply (websheet_initial _ _ Hinit).
Qed.

End GetState.

Lemma getState_empty_before_first_success_witness :
  match websheet None (report_form "https://x/r") with
  | Returns inst =>
      getState
        (run (engine := bare_engine) inst
           [Submit; Error 0; SetState [("year", "2021")]; Submit])
      = Obj.empty
  | TypeError => False
  end.
Proof.
  destruct (websheet None (report_form "https://x/r")) as [inst |] eqn:Hinit.
  - apply (@getState_empty_before_first_success bare_engine None
             (report_form "https://x/r") inst
             [Submit; Error 0; SetState [("year", "2021")]; Submit] Hinit).
    reflexivity.
  - discriminate Hinit.
Defined.

(* ===================================================================== *)
(** * A response without a table, a failed fetch *)
(* ===================================================================== *)

Section Failures.

Context {engine : Engine}.

Lemma success_without_table (inst : Instance) (req : Request) :
  fst (success inst req None)
  = run_callback (set_div (Markup "") (set_last_submit (fieldsObj req) inst)).
Proof.
  unfold success. destruct (scan_headers inst []) as [[sc sd] classes].
  reflexivity.
Qed.

(** C3, amended.  When the document fetched has no table, [success] still
    commits: the stored FormState becomes the fields of the submission
    that made the request, and the display area is left empty, without
    failure markup. *)
Theorem success_without_table_commits
    (inst : Instance) (n : nat) (req : Request) (others : list Request) :
  take_out n (pending inst) = Some (req, others) ->
  let after := step inst (Success n None) in
  getState after = fieldsObj req
  /\ div after = Markup ""
  /\ pending after = others.
Proof.
  intros H. unfold step. rewrite H. rewrite success_without_table.
  unfold getState.
  rewrite run_callback_last_submit, run_callback_div, run_callback_pending.
  repeat split.
Qed.

(** C9, amended.  A failed fetch puts the failure markup of the instance,
    which is never empty, in the display area, in place of what was there;
    a response without a table leaves the display area empty: the two are
    not shown alike. *)
Theorem fetch_failure_shows_failure_markup
    (args : option Args) (form : Form) (inst0 : Instance) (evs : list Event)
    (n : nat) (req : Request) (others : list Request) :
  websheet args form = Returns inst0 ->
  take_out n (pending (run inst0 evs)) = Some (req, others) ->
  let inst := run inst0 evs in
  div (step inst (Error n)) = Markup (failed (settings inst))
  /\ div (step inst (Success n None)) = Markup ""
  /\ failed (settings inst) <> "".
Proof.
  intros Hinit Hreq inst. subst inst. unfold step. rewrite Hreq.
  split; [reflexivity |]. split.
  - rewrite success_without_table, run_callback_div. reflexivity.
  - rewrite run_settings.
    destruct (websheet_initial _ _ Hinit) as [_ [_ [_ [Hf _]]]].
    rewrite Hf. discriminate.
Qed.

End Failures.

Lemma success_without_table_commits_witness :
  match started None (report_form "https://x/r") [Submit] with
  | Some before =>
      getState (step (engine := bare_engine) before (Success 0 None))
      = [("year", "2020"); ("_debug", "x")]
  | None => False
  end.
Proof.
  destruct (started None (report_form "https://x/r") [Submit])
    as [before |] eqn:Hrun; [| discriminate Hrun].
  injection Hrun as <-.
  apply (@success_without_table_commits bare_engine _ 0
           {| url := "https://x/r/year:2020/table_2020.xls";
              fieldsObj := [("year", "2020"); ("_debug", "x")] |} []).
  reflexivity.
Defined.

(** C3 as stated fails: after a response without a table the display area
    does not hold the failure markup, and the stored FormState has moved. *)
Lemma no_table_found_is_not_handled :
  match started None (report_form "https://x/r") [Submit] with
  | Some before =>
      let after := step (engine := bare_engine) before (Success 0 None) in
      div after <> Markup (failed (settings before))
      /\ getState after <> getState before
      /\ ~ Spec.no_table_found (failed (settings before)) before after
  | None => False
  end.
Proof.
  vm_compute. repeat split; try discriminate.
  intros [H _]. discriminate H.
Qed.

Lemma fetch_failure_shows_failure_markup_witness :
  match websheet (Some oops_args) (report_form "https://x/r") with
  | Returns inst0 =>
      let inst := run (engine := bare_engine) inst0 [Submit] in
      div inst = Markup "Loading..."
      /\ div (step (engine := bare_engine) inst (Error 0))
         = Markup (failed (settings inst))
      /\ div (step (engine := bare_engine) inst (Success 0 None)) = Markup ""
  | TypeError => False
  end.
Proof.
  destruct (websheet (Some oops_args) (report_form "https://x/r"))
    as [inst0 |] eqn:Hinit; [| discriminate Hinit].
  destruct (@fetch_failure_shows_failure_markup bare_engine
              (Some oops_args) (report_form "https://x/r") inst0 [Submit] 0
              {| url := "https://x/r/year:2020/table_2020.xls";
                 fieldsObj := [("year", "2020"); ("_debug", "x")] |} []
              Hinit) as [He [Hs _]].
  - injection Hinit as <-. reflexivity.
  - injection Hinit as <-. split; [reflexivity |]. split; [exact He | exact Hs].
Defined.

(** C9 as stated fails: with [failed: "Oops"] in the options, a response
    without a table does not show that markup, and is not shown as a
    failed fetch is; nor does the failed fetch show it. *)
Lemma failures_not_surfaced_alike :
  match started (Some oops_args) (report_form "https://x/r") [Submit] with
  | Some inst =>
      div (step (engine := bare_engine) inst (Success 0 None)) <> Markup "Oops"
      /\ div (step (engine := bare_engine) inst (Success 0 None))
         <> div (step (engine := bare_engine) inst (Error 0))
      /\ div (step (engine := bare_engine) inst (Error 0)) <> Markup "Oops"
  | None => False
  end.
Proof. vm_compute. repeat split; discriminate. Qed.

(* ===================================================================== *)
(** * The URL Builder *)
(* ===================================================================== *)

Lemma remove_non_alnum (n : string) :
  Js.remove (fun c => negb (Js.is_alnum c)) n = Spec.sanitize_name n.
Proof.
  unfold Js.remove, Spec.sanitize_name. apply filter_ext.
  intros c. apply negb_involutive.
Qed.

Lemma segments_cons (f : string * string) (fields : list (string * string)) :
  Spec.segments (f :: fields)
  = if Spec.contributes f
    then (Spec.segment f ++ Spec.segments fields)%string
    else Spec.segments fields.
Proof.
  unfold Spec.segments. simpl. destruct (Spec.contributes f); [| reflexivity].
  simpl. apply concat_cons.
Qed.

Lemma fields_loop (fields : list (string * string)) (u : string) (o : Obj.t) :
  fold_left each_field fields (u, o)
  = ((u ++ Spec.segments fields)%string, fold_left assign_field fields o).
Proof.
  revert u o. induction fields as [| [n v] fields IH]; intros u o.
  - simpl. unfold Spec.segments. simpl. now rewrite append_nil_r.
  - simpl fold_left.
    destruct (each_field (u, o) (n, v)) as [u' o'] eqn:E. rewrite IH.
    unfold each_field in E. injection E as <- <-.
    rewrite segments_cons. unfold Spec.contributes, assign_field. simpl.
    destruct (negb (v =? "")%string && negb (Js.starts_with "_" n)).
    + rewrite append_assoc. unfold Spec.segment. simpl.
      rewrite remove_non_alnum. reflexivity.
    + reflexivity.
Qed.

Lemma own_set (k k' v : string) (o : Obj.t) :
  Obj.own k (Obj.set k' v o)
  = if String.eqb k' k then Some v else Obj.own k o.
Proof.
  induction o as [| [k0 v0] o IH]; simpl.
  - reflexivity.
  - destruct (String.eqb k0 k') eqn:E0; simpl.
    + apply String.eqb_eq in E0. subst k0.
      destruct (String.eqb k' k); reflexivity.
    + rewrite IH. destruct (String.eqb k0 k) eqn:E1; [| reflexivity].
      apply String.eqb_eq in E1. subst k0. rewrite String.eqb_sym, E0.
      reflexivity.
Qed.

Lemma own_fields (fields : list (string * string)) (o : Obj.t) (k : string) :
  String.eqb k "__proto__" = false ->
  Obj.own k (fold_left assign_field fields o)
  = match Spec.field_value fields k with
    | Some v => Some v
    | None => Obj.own k o
    end.
Proof.
  intros Hk. revert o. induction fields as [| [n v] fields IH]; intros o.
  - reflexivity.
  - simpl. rewrite IH. destruct (Spec.field_value fields k); [reflexivity |].
    unfold assign_field, Obj.assign. simpl.
    destruct (String.eqb n "__proto__") eqn:En.
    + apply String.eqb_eq in En. subst n. rewrite String.eqb_sym, Hk.
      reflexivity.
    + rewrite own_set. destruct (String.eqb n k); reflexivity.
Qed.

Lemma not_inherited_not_proto (k : string) :
  Obj.is_inherited k = false -> String.eqb k "__proto__" = false.
Proof.
  intros H. destruct (String.eqb k "__proto__") eqn:E; [| reflexivity].
  apply String.eqb_eq in E. subst k. discriminate H.
Qed.

Lemma chunks_loop (fields : list (string * string)) (o : Obj.t)
    (chunks : list string) (u : string) :
  (forall k, String.eqb k "__proto__" = false ->
             Obj.own k o = Spec.field_value fields k) ->
  (forall c, In c chunks -> Obj.is_inherited c = false) ->
  each_chunk o chunks u
  = ((u ++ Js.concat (List.map (Spec.resolve fields) chunks))%string, Returns tt).
Proof.
  intros Ho. revert u. induction chunks as [| c chunks IH]; intros u Hc.
  - simpl. now rewrite append_nil_r.
  - simpl List.map. rewrite concat_cons. simpl each_chunk.
    assert (Hi : Obj.is_inherited c = false) by (apply Hc; left; reflexivity).
    unfold Obj.get, Spec.resolve.
    rewrite (Ho c (not_inherited_not_proto c Hi)), Hi.
    destruct (Spec.field_value fields c) as [v |];
      (rewrite IH; [now rewrite append_assoc |]);
      intros c' Hc'; apply Hc; right; exact Hc'.
Qed.

Section UrlBuilder.

Context {engine : Engine}.

(** What [submit] does when no chunk of the template names a member
    inherited from [Object.prototype]. *)
Lemma submit_request (inst : Instance) :
  (forall c, In c (format (settings inst)) -> Obj.is_inherited c = false) ->
  let fields := serializeArray inst in
  let request :=
    {| url := (base_url (settings inst) ++ Spec.segments fields
               ++ Js.concat (List.map (Spec.resolve fields) (format (settings inst)))
               ++ ".xls")%string;
       fieldsObj := fold_left assign_field fields Obj.empty |} in
  snd (submit inst) = Returns tt
  /\ pending (fst (submit inst)) = pending inst ++ [request]
  /\ div (fst (submit inst)) = Markup (loading (settings inst)).
Proof.
  intros Hc fields request. unfold submit. fold fields.
  rewrite fields_loop.
  rewrite (chunks_loop fields).
  - simpl. repeat split. unfold request, extension.
    rewrite !append_assoc. reflexivity.
  - intros k Hk. rewrite (own_fields fields Obj.empty k Hk).
    destruct (Spec.field_value fields k); reflexivity.
  - exact Hc.
Qed.

(** C4, amended.  At every submission the URL fetched is the data source,
    with a slash added when it does not end in one, followed by one
    segment [name:value/] per field in form order, sanitized, the fields
    with an empty value or a name starting with an underscore giving none,
    followed by the template with each chunk that names a field replaced
    by that field's sanitized value, and [.xls].  (For a template none of
    whose chunks names a member inherited from [Object.prototype].) *)
Theorem submit_fetch_url
    (args : option Args) (form : Form) (source template : string)
    (inst0 : Instance) (evs : list Event) :
  websheet args form = Returns inst0 ->
  data_source form = Some source ->
  data_filename_format form = Some template ->
  (forall c, In c (Js.split_chunks template) -> Obj.is_inherited c = false) ->
  let inst := run inst0 evs in
  let fields := serializeArray inst in
  pending (step inst Submit)
  = pending inst
    ++ [{| url := Spec.build_as_coded source fields template;
           fieldsObj := fold_left assign_field fields Obj.empty |}].
Proof.
  intros Hinit Hs Ht Hc inst fields.
  destruct (websheet_initial _ _ Hinit)
    as [_ [_ [_ [_ [source' [template' [Hs' [Ht' [Hb Hf]]]]]]]]].
  rewrite Hs in Hs'. injection Hs' as <-.
  rewrite Ht in Ht'. injection Ht' as <-.
  assert (Hset : settings inst = settings inst0) by apply run_settings.
  destruct (submit_request inst) as [_ [Hp _]].
  - rewrite Hset, Hf. exact Hc.
  - simpl. rewrite Hp. rewrite Hset, Hb, Hf. reflexivity.
Qed.

End UrlBuilder.

Lemma submit_fetch_url_witness :
  match websheet None (report_form "https://x/r") with
  | Returns inst0 =>
      pending (step (engine := bare_engine) (run (engine := bare_engine) inst0 []) Submit)
      = [{| url := "https://x/r/year:2020/table_2020.xls";
            fieldsObj := [("year", "2020"); ("_debug", "x")] |}]
  | TypeError => False
  end.
Proof.
  destruct (websheet None (report_form "https://x/r")) as [inst0 |] eqn:Hinit;
    [| discriminate Hinit].
  rewrite (@submit_fetch_url bare_engine None (report_form "https://x/r")
             "https://x/r" "table_year" inst0 [] Hinit eq_refl eq_refl).
  - injection Hinit as <-. vm_compute. reflexivity.
  - intros c Hc. simpl in Hc.
    destruct Hc as [<- | [<- | [<- | []]]]; reflexivity.
Defined.

(** C4 as stated fails: a data source that ends in two slashes keeps both,
    so the URL fetched is not the one built on the base normalized to
    exactly one trailing slash. *)
Lemma base_url_keeps_double_slash :
  match started None (report_form "https://x/r//") [Submit] with
  | Some inst =>
      List.map url (pending inst) = ["https://x/r//year:2020/table_2020.xls"]
      /\ List.map url (pending inst)
         <> [Spec.build "https://x/r//" [("year", "2020"); ("_debug", "x")]
               "table_year"]
  | None => False
  end.
Proof. vm_compute. split; [reflexivity | discriminate]. Qed.

(* ===================================================================== *)
(** * Reloading the table *)
(* ===================================================================== *)

Section Reload.

Context {engine : Engine}.

Variables (form_sort_col : option nat) (form_sort_desc : option bool)
          (form_sort_title : option string).

Lemma header_loop (head : list RawHeader) (k : nat)
    (sort_col : nat) (sort_desc : bool) (classes : list (option string)) :
  fold_left (each_header form_sort_col form_sort_desc form_sort_title)
            (combine (seq k (length head)) head) (sort_col, sort_desc, classes)
  = (if found_from form_sort_col form_sort_title k head
     then remembered form_sort_col form_sort_desc
     else (sort_col, sort_desc),
     classes ++ List.map rh_class head).
Proof.
  revert k sort_col sort_desc classes.
  induction head as [| h head IH]; intros k sc sd classes.
  - simpl. rewrite app_nil_r.
    replace (found_from form_sort_col form_sort_title k []) with false;
      [reflexivity |].
    unfold found_from. destruct form_sort_col as [c |]; [| reflexivity].
    destruct form_sort_title as [label |]; [| reflexivity].
    destruct (c - k); simpl; now rewrite andb_false_r.
  - cbn [length seq combine fold_left].
    destruct (each_header form_sort_col form_sort_desc form_sort_title
                (sc, sd, classes) (k, h)) as [[sc' sd'] classes'] eqn:E.
    rewrite IH. unfold each_header in E. unfold found_from, remembered in *.
    destruct form_sort_col as [c |].
    2: { simpl in E. injection E as <- <- <-.
         rewrite <- app_assoc. reflexivity. }
    destruct form_sort_title as [label |].
    2: { rewrite andb_false_r in E. injection E as <- <- <-.
         rewrite <- app_assoc. reflexivity. }
    destruct (Nat.eqb_spec c k) as [-> | Hne].
    + rewrite Nat.sub_diag, Nat.leb_refl. simpl nth_error.
      replace (S k <=? k) with false by (symmetry; apply Nat.leb_gt; lia).
      simpl andb in *.
      destruct (String.eqb label (rh_text h)); injection E as <- <- <-;
        rewrite <- app_assoc; reflexivity.
    + simpl andb in E. injection E as <- <- <-.
      rewrite <- app_assoc. simpl app. f_equal.
      destruct (Nat.leb_spec (S k) c) as [Hle | Hgt].
      * replace (k <=? c) with true by (symmetry; apply Nat.leb_le; lia).
        replace (c - k) with (S (c - S k)) by lia. reflexivity.
      * replace (k <=? c) with false by (symmetry; apply Nat.leb_gt; lia).
        reflexivity.
Qed.

End Reload.

Section ReloadClaim.

Context {engine : Engine}.

Lemma scan_headers_closed (inst : Instance) (head : list RawHeader) :
  scan_headers inst head
  = (Spec.reload_sort inst head, List.map rh_class head).
Proof.
  unfold scan_headers, indexed. rewrite header_loop. simpl app.
  unfold Spec.reload_sort, Spec.reapplied, found_from, remembered.
  destruct (__websheet_sort_col inst) as [c |]; [| reflexivity].
  destruct (__websheet_sort_title inst) as [label |]; [| reflexivity].
  rewrite Nat.sub_0_r. reflexivity.
Qed.

(** C8.  When a table arrives, the variables [sort_col] and [sort_desc]
    take the persisted column and direction exactly when the persisted
    column is the index of a header cell of the new table whose text is the
    persisted title, and the configured [init_sort_col] and
    [init_sort_desc] otherwise; the table is sorted with them, by the type
    of that column, and when the sort returns that header gets the
    marker. *)
Theorem reload_reapplies_sort_state
    (inst : Instance) (req : Request) (raw : RawTable) :
  let head := rt_head raw in
  let classes := List.map rh_class head in
  let col := fst (Spec.reload_sort inst head) in
  let desc := snd (Spec.reload_sort inst head) in
  let fresh := materialize (set_last_submit (fieldsObj req) inst) raw classes in
  let sorted := sortTable fresh col desc (class_at classes col) in
  scan_headers inst head = (col, desc, classes)
  /\ (Spec.reapplied inst head = true ->
      __websheet_sort_col inst = Some col
      /\ (forall d, __websheet_sort_desc inst = Some d -> desc = d))
  /\ (Spec.reapplied inst head = false ->
      col = init_sort_col (settings inst)
      /\ desc = init_sort_desc (settings inst))
  /\ snd (success inst req (Some raw)) = snd sorted
  /\ exists shown,
       div (fst (success inst req (Some raw))) = Shown shown
       /\ t_rows shown = t_rows (fst sorted)
       /\ (snd sorted = Returns tt ->
           t_head shown
           = Dom.at_eq col (Dom.header_addClass (order_class desc)) (t_head fresh)).
Proof.
  intros head classes col desc fresh sorted.
  assert (Hscan : scan_headers inst head = (col, desc, classes)).
  { rewrite scan_headers_closed. unfold col, desc.
    destruct (Spec.reload_sort inst head). reflexivity. }
  split; [exact Hscan |].
  split; [| split].
  - intros Hre. unfold col, desc, Spec.reload_sort. rewrite Hre. simpl.
    unfold Spec.reapplied in Hre.
    destruct (__websheet_sort_col inst) as [c |]; [| discriminate Hre].
    split; [reflexivity |]. intros d ->. reflexivity.
  - intros Hre. unfold col, desc, Spec.reload_sort. rewrite Hre. split; reflexivity.
  - unfold success. fold head. rewrite Hscan. fold fresh.
    unfold sorted, sortTable.
    destruct (sort_rows (t_rows fresh) col desc (class_at classes col))
      as [rows |]; simpl.
    + split; [reflexivity |]. eexists. repeat split.
    + split; [reflexivity |]. eexists. split; [reflexivity |].
      split; [reflexivity |]. intros H. discriminate H.
Qed.

End ReloadClaim.

(* ===================================================================== *)
(** * The header click state machine *)
(* ===================================================================== *)

Lemma hasClass_filter (x : string) (p : string -> bool) (l : list string) :
  Dom.hasClass x (List.filter p l) = true -> p x = true.
Proof.
  unfold Dom.hasClass. intros H.
  apply existsb_exists in H. destruct H as [y [Hy Hxy]].
  apply String.eqb_eq in Hxy. subst y.
  apply filter_In in Hy. apply Hy.
Qed.

Lemma hasClass_removed (desc : bool) (l : list string) :
  Dom.hasClass (order_class desc) (Dom.removeClass "asc desc" l) = false.
Proof.
  destruct (Dom.hasClass (order_class desc) (Dom.removeClass "asc desc" l))
    eqn:E; [| reflexivity].
  apply hasClass_filter in E. destruct desc; discriminate E.
Qed.

Lemma hasClass_add_one (x y : string) (l : list string) :
  Dom.hasClass x (Dom.add_one l y) = Dom.hasClass x l || String.eqb x y.
Proof.
  unfold Dom.add_one. destruct (Dom.hasClass y l) eqn:E.
  - destruct (String.eqb_spec x y) as [-> | _].
    + rewrite E. reflexivity.
    + now rewrite orb_false_r.
  - unfold Dom.hasClass. rewrite existsb_app. simpl. now rewrite orb_false_r.
Qed.

Lemma addClass_order (desc : bool) (l : list string) :
  Dom.addClass (Some (order_class desc)) l = Dom.add_one l (order_class desc).
Proof. destruct desc; reflexivity. Qed.

Lemma order_class_eqb (x d : bool) :
  String.eqb (order_class x) (order_class d) = Bool.eqb x d.
Proof. destruct x, d; reflexivity. Qed.

(** The classes of a header after a click that chose [d]. *)
Lemma hasClass_after_click (x d : bool) (h : Header) :
  Dom.hasClass (order_class x)
    (h_classes (Dom.header_addClass (order_class d)
                  (Dom.header_removeClass "asc desc" h)))
  = Bool.eqb x d.
Proof.
  unfold Dom.header_addClass, Dom.header_removeClass. cbn [h_classes].
  rewrite addClass_order, hasClass_add_one, hasClass_removed.
  apply order_class_eqb.
Qed.

Lemma marked_removed (h : Header) :
  Dom.marked (Dom.header_removeClass "asc desc" h) = false.
Proof.
  unfold Dom.marked, Dom.header_removeClass. cbn [h_classes].
  pose proof (hasClass_removed false (h_classes h)) as Ha.
  pose proof (hasClass_removed true (h_classes h)) as Hd.
  unfold order_class in Ha, Hd. rewrite Ha, Hd. reflexivity.
Qed.

Lemma marked_order (d : bool) (h : Header) :
  Dom.hasClass (order_class d) (h_classes h) = true -> Dom.marked h = true.
Proof.
  unfold Dom.marked. destruct d; simpl; intros ->;
    [apply orb_true_r | reflexivity].
Qed.

Lemma nth_error_at_eq {A : Type} (f : A -> A) (l : list A) (i : nat) (x : A) :
  nth_error l i = Some x -> nth_error (Dom.at_eq i f l) i = Some (f x).
Proof.
  revert i. induction l as [| y l IH]; intros [| i]; simpl; intros H;
    try discriminate.
  - injection H as ->. reflexivity.
  - apply IH. exact H.
Qed.

Lemma one_marked (f : Header -> Header) (l : list Header) (i : nat) (h : Header) :
  Forall (fun h => Dom.marked h = false) l ->
  nth_error l i = Some h ->
  Dom.marked (f h) = true ->
  length (List.filter Dom.marked (Dom.at_eq i f l)) = 1.
Proof.
  intros Hl. revert i. induction Hl as [| y l Hy Hl IH]; intros [| i] Hi Hf;
    simpl in *; try discriminate.
  - injection Hi as ->. rewrite Hf. simpl. f_equal.
    clear IH. induction Hl as [| z l Hz Hl IH]; simpl; [reflexivity |].
    rewrite Hz. exact IH.
  - rewrite Hy. apply IH; assumption.
Qed.

Section Clicks.

Context {engine : Engine}.

Lemma click_effect (inst : Instance) (t : Table) (h : Header) (i : nat) :
  div inst = Shown t ->
  nth_error (t_head t) i = Some h ->
  Forall (sortable i (className h)) (t_rows t) ->
  let init := init_sort_desc (settings inst) in
  let d := negb (Bool.eqb (Dom.hasClass (order_class init) (h_classes h)) init) in
  exists rows,
    sort_rows (t_rows t) i d (className h) = Returns rows
    /\ Forall (sortable i (className h)) rows
    /\ step inst (Click i)
       = set_sort i d (h_text h) (set_div (Shown (after_click t i d rows)) inst).
Proof.
  intros Hdiv Hh Hrows init d.
  destruct (@sort_rows_returns engine (t_rows t) i d (className h) Hrows)
    as [rows [Hs Hf]].
  exists rows. split; [exact Hs |]. split; [exact Hf |].
  simpl. unfold click. rewrite Hdiv, Hh. fold init. fold d.
  unfold sortTable. simpl t_rows. rewrite Hs. reflexivity.
Qed.

Lemma after_click_header (t : Table) (h : Header) (i : nat) (d : bool)
    (rows : list Row) :
  nth_error (t_head t) i = Some h ->
  nth_error (t_head (after_click t i d rows)) i
  = Some (Dom.header_addClass (order_class d)
            (Dom.header_removeClass "asc desc" h))
  /\ Dom.count_marked (after_click t i d rows) = 1.
Proof.
  intros Hh.
  assert (Hm : nth_error (List.map (Dom.header_removeClass "asc desc") (t_head t)) i
               = Some (Dom.header_removeClass "asc desc" h)).
  { rewrite nth_error_map, Hh. reflexivity. }
  split.
  - simpl. apply nth_error_at_eq. exact Hm.
  - unfold Dom.count_marked. simpl.
    apply one_marked with (h := Dom.header_removeClass "asc desc" h).
    + apply Forall_forall. intros x Hx. apply in_map_iff in Hx.
      destruct Hx as [y [<- _]]. apply marked_removed.
    + exact Hm.
    + apply (marked_order d). rewrite hasClass_after_click.
      apply Bool.eqb_reflx.
Qed.

End Clicks.

Section FreshTable.

Context {engine : Engine}.

Lemma nth_error_indexed {A : Type} (l : list A) (k i : nat) :
  nth_error (combine (seq k (length l)) l) i
  = option_map (fun x => (k + i, x)) (nth_error l i).
Proof.
  revert k i. induction l as [| x l IH]; intros k [| i]; simpl;
    try reflexivity.
  - now rewrite Nat.add_0_r.
  - rewrite IH. now rewrite Nat.add_succ_r.
Qed.

Lemma type_cell_text (lang0 : string) (cls : option string) (text : string) :
  is_numeric_type cls = false ->
  type_cell lang0 cls text = DText (Js.trim text).
Proof.
  unfold type_cell, is_numeric_type, is_class.
  destruct cls as [c |]; [| reflexivity].
  intros H.
  apply orb_false_elim in H. destruct H as [H Hdate].
  apply orb_false_elim in H. destruct H as [H Hamount].
  apply orb_false_elim in H. destruct H as [Hbool Hnumber].
  rewrite Hbool, Hnumber, Hamount, Hdate. reflexivity.
Qed.

(** A materialized row with a cell at [i] can be sorted on the column [i]
    by the type of that column. *)
Lemma materialize_row_sortable (lang0 : string)
    (classes : list (option string)) (texts : list string) (i : nat) :
  i < length texts ->
  sortable i (class_at classes i) (materialize_row lang0 classes texts).
Proof.
  intros Hi. unfold sortable.
  destruct (is_numeric_type (class_at classes i)) eqn:Hk; [left; reflexivity |].
  right. unfold materialize_row, indexed. simpl.
  rewrite nth_error_map, nth_error_indexed.
  destruct (nth_error texts i) as [text |] eqn:Ht.
  - simpl. rewrite (type_cell_text _ _ _ Hk). eexists. reflexivity.
  - apply nth_error_None in Ht. lia.
Qed.

Lemma sort_rows_permutation (rows rows' : list Row) (c : nat) (d : bool)
    (k : option string) :
  sort_rows rows c d k = Returns rows' -> Permutation rows rows'.
Proof.
  unfold sort_rows.
  destruct (array_sort (comparator c k) rows) as [s |] eqn:Hs; simpl;
    [| discriminate].
  intros H. injection H as <-.
  pose proof (array_sort_permutation _ _ Hs) as Hp.
  destruct d; [| exact Hp].
  apply Permutation_trans with s; [exact Hp | apply Permutation_rev].
Qed.

Lemma at_eq_keeps (P : Header -> Prop) (f : Header -> Header)
    (l : list Header) (i j : nat) (h : Header) :
  (forall x, P x -> P (f x)) ->
  nth_error l i = Some h -> P h ->
  exists h', nth_error (Dom.at_eq j f l) i = Some h' /\ P h'.
Proof.
  intros Hf. revert i j. induction l as [| y l IH]; intros [| i] [| j] Hi Hp;
    simpl in *; try discriminate.
  - injection Hi as ->. eexists. split; [reflexivity | apply Hf, Hp].
  - injection Hi as ->. eexists. split; [reflexivity | exact Hp].
  - eexists. split; [exact Hi | exact Hp].
  - apply IH; assumption.
Qed.

(** What [success] leaves for a click on the header at [i]. *)
Lemma success_ready (inst : Instance) (req : Request) (raw : RawTable)
    (i : nat) (rh : RawHeader) :
  nth_error (rt_head raw) i = Some rh ->
  is_numeric_type (rh_class rh) = true
  \/ Forall (fun texts => i < length texts) (rt_body raw) ->
  exists t h,
    div (fst (success inst req (Some raw))) = Shown t
    /\ nth_error (t_head t) i = Some h
    /\ Forall (sortable i (className h)) (t_rows t).
Proof.
  intros Hrh Hbody.
  set (classes := List.map rh_class (rt_head raw)).
  set (fresh := materialize (set_last_submit (fieldsObj req) inst) raw classes).
  assert (Hcls : class_at classes i = rh_class rh).
  { unfold class_at, classes. rewrite nth_error_map, Hrh. reflexivity. }
  assert (Hhead : exists h0, nth_error (t_head fresh) i = Some h0
                             /\ className h0 = rh_class rh).
  { eexists. split.
    - unfold fresh, materialize. simpl. rewrite nth_error_map, Hrh. reflexivity.
    - reflexivity. }
  assert (Hrows : Forall (sortable i (rh_class rh)) (t_rows fresh)).
  { unfold fresh, materialize. simpl. apply Forall_forall. intros r Hr.
    destruct Hbody as [Hnum | Hbody]; [left; exact Hnum |].
    apply in_map_iff in Hr. destruct Hr as [texts [<- Hin]].
    rewrite <- Hcls. apply materialize_row_sortable.
    rewrite Forall_forall in Hbody. apply Hbody. exact Hin. }
  destruct Hhead as [h0 [Hh0 Hc0]].
  unfold success. rewrite scan_headers_closed.
  destruct (Spec.reload_sort inst (rt_head raw)) as [col desc].
  fold classes. fold fresh. unfold sortTable.
  destruct (sort_rows (t_rows fresh) col desc (class_at classes col))
    as [rows |] eqn:Hs; simpl.
  - destruct (at_eq_keeps (fun h => className h = rh_class rh)
                (Dom.header_addClass (order_class desc)) (t_head fresh) i col
                (fun x Hx => Hx) Hh0 Hc0) as [h' [Hh' Hc']].
    exists (Dom.with_head
              (Dom.at_eq col (Dom.header_addClass (order_class desc)))
              (Dom.with_rows rows fresh)), h'.
    split; [reflexivity |]. split; [exact Hh' |].
    rewrite Hc'. simpl.
    apply (Permutation_Forall (sort_rows_permutation _ _ _ _ Hs) Hrows).
  - exists (Dom.with_rows [] fresh), h0.
    split; [reflexivity |]. split; [exact Hh0 |]. constructor.
Qed.

End FreshTable.

Section ThreeClicks.

Context {engine : Engine}.

(** One click on a header whose column can be sorted. *)
Lemma click_once (inst : Instance) (t : Table) (h : Header) (i : nat) :
  div inst = Shown t ->
  nth_error (t_head t) i = Some h ->
  Forall (sortable i (className h)) (t_rows t) ->
  let init := init_sort_desc (settings inst) in
  let d := negb (Bool.eqb (Dom.hasClass (order_class init) (h_classes h)) init) in
  let after := step inst (Click i) in
  Spec.clicked i d inst after
  /\ settings after = settings inst
  /\ exists t' h',
       div after = Shown t'
       /\ nth_error (t_head t') i = Some h'
       /\ Forall (sortable i (className h')) (t_rows t')
       /\ forall x, Dom.hasClass (order_class x) (h_classes h') = Bool.eqb x d.
Proof.
  intros Hdiv Hh Hrows init d after.
  destruct (@click_effect engine inst t h i Hdiv Hh Hrows)
    as [rows [Hs [Hf Hstep]]].
  fold init in Hs, Hstep. fold d in Hs, Hstep. fold after in Hstep.
  destruct (@after_click_header t h i d rows Hh) as [Hh' Hone].
  set (h' := Dom.header_addClass (order_class d)
               (Dom.header_removeClass "asc desc" h)) in *.
  assert (Hcls : forall x, Dom.hasClass (order_class x) (h_classes h')
                           = Bool.eqb x d)
    by (intros x; apply hasClass_after_click).
  split; [| split].
  - exists t, (after_click t i d rows), h, h'.
    rewrite Hstep. repeat split; try assumption.
    rewrite Hcls. apply Bool.eqb_reflx.
  - rewrite Hstep. reflexivity.
  - exists (after_click t i d rows), h'. rewrite Hstep.
    repeat split; assumption.
Qed.

(** Where the sort of a click returns, the header click state machine is
    the one the source describes.  On a table that has just been
    materialized, three clicks in a row on a header that was not the active
    one sort with the directions [init_sort_desc], its opposite, and
    [init_sort_desc] again: ascending, descending, ascending under the
    default configuration.  After each click the sort state is persisted
    and the header clicked is the one header with a marker.  This for a
    column of a numeric type, or one in which every row has a cell. *)
Lemma three_clicks_toggle
    (inst : Instance) (req : Request) (raw : RawTable) (i : nat) :
  i < length (rt_head raw) ->
  is_numeric_type (class_at (List.map rh_class (rt_head raw)) i) = true
  \/ Forall (fun texts => i < length texts) (rt_body raw) ->
  Spec.inactive i (fst (success inst req (Some raw))) ->
  let fresh := fst (success inst req (Some raw)) in
  let first := step fresh (Click i) in
  let second := step first (Click i) in
  let third := step second (Click i) in
  let d0 := init_sort_desc (settings inst) in
  Spec.clicked i d0 fresh first
  /\ Spec.clicked i (negb d0) first second
  /\ Spec.clicked i d0 second third
  /\ (d0 = false ->
      List.map __websheet_sort_desc [first; second; third]
      = [Some false; Some true; Some false]).
Proof.
  intros Hi Hbody Hinactive fresh first second third d0.
  destruct (nth_error (rt_head raw) i) as [rh |] eqn:Hrh;
    [| apply nth_error_None in Hrh; lia].
  assert (Hbody' : is_numeric_type (rh_class rh) = true
                   \/ Forall (fun texts => i < length texts) (rt_body raw)).
  { destruct Hbody as [Hnum | Hcells]; [left | right; exact Hcells].
    unfold class_at in Hnum. rewrite nth_error_map, Hrh in Hnum. exact Hnum. }
  destruct (@success_ready engine inst req raw i rh Hrh Hbody')
    as [t0 [h0 [Hd0 [Hh0 Hr0]]]].
  fold fresh in Hd0.
  assert (Hset0 : settings fresh = settings inst) by apply success_settings.
  (* first click: the header carries no marker *)
  destruct (@click_once fresh t0 h0 i Hd0 Hh0 Hr0)
    as [Hc1 [Hset1 [t1 [h1 [Hd1 [Hh1 [Hr1 Hcls1]]]]]]].
  fold first in Hc1, Hset1, Hd1.
  assert (Hdir1 : negb (Bool.eqb (Dom.hasClass
                                    (order_class (init_sort_desc (settings fresh)))
                                    (h_classes h0))
                                 (init_sort_desc (settings fresh))) = d0).
  { rewrite Hset0. fold d0.
    pose proof (Hinactive t0 h0 Hd0 Hh0) as Hm. unfold Dom.marked in Hm.
    apply orb_false_elim in Hm. destruct Hm as [Hasc Hdesc].
    unfold order_class. destruct d0; [rewrite Hdesc | rewrite Hasc]; reflexivity. }
  rewrite Hdir1 in Hc1, Hcls1.
  (* second click: the header carries the marker of [d0] *)
  destruct (@click_once first t1 h1 i Hd1 Hh1 Hr1)
    as [Hc2 [Hset2 [t2 [h2 [Hd2 [Hh2 [Hr2 Hcls2]]]]]]].
  fold second in Hc2, Hset2, Hd2.
  assert (Hdir2 : negb (Bool.eqb (Dom.hasClass
                                    (order_class (init_sort_desc (settings first)))
                                    (h_classes h1))
                                 (init_sort_desc (settings first))) = negb d0).
  { rewrite Hset1, Hset0. fold d0. rewrite Hcls1. destruct d0; reflexivity. }
  rewrite Hdir2 in Hc2, Hcls2.
  (* third click: the header carries the marker of the opposite *)
  destruct (@click_once second t2 h2 i Hd2 Hh2 Hr2)
    as [Hc3 [Hset3 _]].
  fold third in Hc3.
  assert (Hdir3 : negb (Bool.eqb (Dom.hasClass
                                    (order_class (init_sort_desc (settings second)))
                                    (h_classes h2))
                                 (init_sort_desc (settings second))) = d0).
  { rewrite Hset2, Hset1, Hset0. fold d0. rewrite Hcls2. destruct d0; reflexivity. }
  rewrite Hdir3 in Hc3.
  split; [exact Hc1 |]. split; [exact Hc2 |]. split; [exact Hc3 |].
  intros Hd. simpl.
  destruct Hc1 as [? [? [? [? [_ [_ [_ [_ [_ [_ [-> _]]]]]]]]]]].
  destruct Hc2 as [? [? [? [? [_ [_ [_ [_ [_ [_ [-> _]]]]]]]]]]].
  destruct Hc3 as [? [? [? [? [_ [_ [_ [_ [_ [_ [-> _]]]]]]]]]]].
  rewrite Hd. reflexivity.
Qed.

End ThreeClicks.

Lemma three_clicks_toggle_witness :
  match started None (report_form "https://x/r") [Submit] with
  | Some inst =>
      let fresh :=
        fst (success (engine := bare_engine) inst report_request (Some ledger)) in
      let first := step (engine := bare_engine) fresh (Click 1) in
      let second := step (engine := bare_engine) first (Click 1) in
      let third := step (engine := bare_engine) second (Click 1) in
      List.map __websheet_sort_desc [first; second; third]
      = [Some false; Some true; Some false]
      /\ Spec.clicked (engine := bare_engine) 1 false fresh first
  | None => False
  end.
Proof.
  destruct (started None (report_form "https://x/r") [Submit])
    as [inst |] eqn:Hrun; [| discriminate Hrun].
  injection Hrun as <-.
  assert (Hcells : Forall (fun texts : list string => 1 < length texts)
                     (rt_body ledger)).
  { repeat constructor. }
  match goal with
  | |- context [success ?inst report_request (Some ledger)] =>
      assert (Hinactive :
                Spec.inactive 1
                  (fst (success (engine := bare_engine) inst report_request
                          (Some ledger))))
  end.
  { intros t h Hd Hh. vm_compute in Hd. injection Hd as <-.
    vm_compute in Hh. injection Hh as <-. reflexivity. }
  destruct (@three_clicks_toggle bare_engine _ report_request ledger 1
              (le_n 2) (or_intror Hcells) Hinactive) as [H1 [_ [_ H]]].
  split; [apply H; reflexivity | exact H1].
Defined.

Lemma reload_reapplies_sort_state_witness :
  match websheet None (report_form "https://x/r") with
  | Returns inst0 =>
      let inst :=
        run (engine := bare_engine) inst0
          [Submit; Success 0 (Some ledger); Click 1; Click 1; Submit] in
      Spec.reapplied inst (rt_head ledger) = true
      /\ scan_headers inst (rt_head ledger) = (1, true, [Some "number"; None])
      /\ Spec.reapplied inst (rev (rt_head ledger)) = false
      /\ scan_headers inst (rev (rt_head ledger))
         = (0, false, [None; Some "number"])
  | TypeError => False
  end.
Proof.
  destruct (websheet None (report_form "https://x/r")) as [inst0 |] eqn:Hinit;
    [| discriminate Hinit].
  injection Hinit as <-.
  match goal with
  | |- let inst := ?i in _ =>
      destruct (@reload_reapplies_sort_state bare_engine i report_request ledger)
        as [Hsame _];
      destruct (@reload_reapplies_sort_state bare_engine i report_request
                  {| rt_caption := None; rt_head := rev (rt_head ledger);
                     rt_body := [] |})
        as [Hother _]
  end.
  cbv zeta.
  split; [vm_compute; reflexivity |].
  split; [rewrite Hsame; vm_compute; reflexivity |].
  split; [vm_compute; reflexivity |].
  cbn [rt_head] in Hother. rewrite Hother. vm_compute. reflexivity.
Defined.

(* ===================================================================== *)
(** * The State Sync Controller: [setState] *)
(* ===================================================================== *)

(** A key of the object that names a control which is not excluded and
    holds the same value already stays in the object: [each_input] deletes
    a key only where it writes the value. *)
Lemma each_input_same_value (changed : bool) (data : Obj.t) (c : Control) :
  Obj.own (control_key c) data = Some (value c) ->
  each_input changed data c = (changed, data, c).
Proof.
  intros H. unfold each_input. rewrite H.
  rewrite String.eqb_refl, andb_false_r. reflexivity.
Qed.

(** C1, on the code: [setState({a: "1"})] on a form whose only field [a]
    already holds ["1"] leaves the key in the object, makes a hidden input
    of it, and returns [true]; the URL then carries the field twice.  With
    a different value the key is consumed. *)
Theorem setState_same_value_is_not_consumed :
  match websheet None single_form with
  | Returns inst =>
      (let '(after, residue, answer) := setState inst [("a", "1")] in
       residue = [("a", "1")]
       /\ hiddens after = [("a", "1")]
       /\ answer = Returns true
       /\ List.map url (pending after) = ["https://x/r/a:1/a:1/table.xls"])
      /\ (let '(after, residue, answer) := setState inst [("a", "2")] in
          residue = []
          /\ hiddens after = []
          /\ answer = Returns true
          /\ List.map url (pending after) = ["https://x/r/a:2/table.xls"])
  | TypeError => False
  end.
Proof. vm_compute. repeat split. Qed.

(** C7, on the code.  The response [short_row] has two text columns and a
    second row with a single cell.  After [Submit] and [Success] a click on
    the second header, which is not the active one, throws in the sort:
    the comparator of the text type calls [toUpperCase] on the entry the
    short row does not have.  The markers were removed and the rows
    detached before: the table is left without a row and without a marked
    header, and no direction is persisted; so under the binary insertion
    sort as well.  (The comparator of the numeric types takes such a row
    as a tie.) *)
Theorem click_on_short_row_throws :
  match websheet None (report_form "https://x/r") with
  | Returns inst0 =>
      let fresh :=
        run (engine := bare_engine) inst0 [Submit; Success 0 (Some short_row)] in
      let first := step (engine := bare_engine) fresh (Click 1) in
      Spec.inactive 1 fresh
      /\ snd (click (engine := bare_engine) fresh 1) = TypeError
      /\ (exists t, div first = Shown t /\ Dom.count_marked t = 0)
      /\ (exists t, div first = Shown t /\ t_rows t = [])
      /\ __websheet_sort_col first = None
      /\ __websheet_sort_desc first = None
      /\ ~ Spec.clicked (engine := bare_engine) 1 false fresh first
      /\ snd (click (engine := binary_insertion_engine)
                (run (engine := binary_insertion_engine) inst0
                   [Submit; Success 0 (Some short_row)]) 1) = TypeError
  | TypeError => False
  end.
Proof.
  destruct (websheet None (report_form "https://x/r")) as [inst0 |] eqn:Hinit;
    [| discriminate Hinit].
  injection Hinit as <-. cbv zeta.
  split; [| split; [| split; [| split; [| split; [| split; [| split]]]]]].
  - intros t h Hd Hh. vm_compute in Hd. injection Hd as <-.
    vm_compute in Hh. injection Hh as <-. reflexivity.
  - vm_compute. reflexivity.
  - eexists. split; vm_compute; reflexivity.
  - eexists. split; vm_compute; reflexivity.
  - vm_compute. reflexivity.
  - vm_compute. reflexivity.
  - intros [tb [ta [hb [ha [_ [_ [_ [_ [_ [_ [H _]]]]]]]]]]].
    vm_compute in H. discriminate H.
  - vm_compute. reflexivity.
Qed.

(* ===================================================================== *)
(** * Further properties: the URL *)
(* ===================================================================== *)

Lemma count_append (c : ascii) (a b : string) :
  Js.count c (a ++ b)%string = Js.count c a + Js.count c b.
Proof.
  induction a as [| x a IH]; simpl; [reflexivity |].
  rewrite IH. apply Nat.add_assoc.
Qed.

Lemma count_filter_out (c : ascii) (keep : ascii -> bool) (s : string) :
  keep c = false -> Js.count c (Js.filter keep s) = 0.
Proof.
  intros Hc. induction s as [| x s IH]; simpl; [reflexivity |].
  destruct (keep x) eqn:Hx; [| exact IH].
  simpl. rewrite IH.
  destruct (Ascii.eqb_spec x c) as [-> | _]; [congruence | reflexivity].
Qed.

Lemma segment_counts (f : string * string) :
  Js.count ":" (Spec.segment f) = 1 /\ Js.count "/" (Spec.segment f) = 1.
Proof.
  unfold Spec.segment, Spec.sanitize_name, Spec.sanitize_value.
  rewrite !count_append.
  rewrite !(count_filter_out _ Js.is_alnum) by reflexivity.
  rewrite !(count_filter_out _ (fun c => negb (Js.is_value_reserved c)))
    by reflexivity.
  split; reflexivity.
Qed.

Lemma segments_counts (fields : list (string * string)) :
  Js.count ":" (Spec.segments fields)
  = length (List.filter Spec.contributes fields)
  /\ Js.count "/" (Spec.segments fields)
     = length (List.filter Spec.contributes fields).
Proof.
  induction fields as [| f fields [IHc IHs]].
  - split; reflexivity.
  - rewrite segments_cons. simpl. destruct (Spec.contributes f).
    + rewrite !count_append, IHc, IHs.
      destruct (segment_counts f) as [-> ->]. split; reflexivity.
    + split; assumption.
Qed.

(** X1.  What the loop over the fields appends to the URL holds exactly one
    colon and one slash for each field that gives a segment, whatever the
    names and the values contain: the segments can be told apart. *)
Theorem field_segments_are_delimited
    (fields : list (string * string)) (dl_url0 : string) (o : Obj.t) :
  exists path,
    fst (fold_left each_field fields (dl_url0, o)) = (dl_url0 ++ path)%string
    /\ Js.count ":" path = length (List.filter Spec.contributes fields)
    /\ Js.count "/" path = length (List.filter Spec.contributes fields).
Proof.
  exists (Spec.segments fields). rewrite fields_loop. simpl.
  split; [reflexivity | apply segments_counts].
Qed.

Lemma split_chunks_concat (s : string) : Js.concat (Js.split_chunks s) = s.
Proof.
  induction s as [| c s IH]; [reflexivity |].
  simpl. destruct (Js.split_chunks s) as [| w rest].
  - unfold Js.concat in *. simpl in *. now rewrite <- IH.
  - destruct (Js.is_alnum c).
    + rewrite concat_cons. rewrite concat_cons in IH. simpl. now rewrite IH.
    + destruct w as [| x w].
      * destruct rest as [| sep rest'].
        -- rewrite !concat_cons. rewrite concat_cons in IH. simpl in *.
           now rewrite IH.
        -- rewrite !concat_cons. rewrite !concat_cons in IH. simpl in *.
           now rewrite IH.
      * rewrite !concat_cons. rewrite concat_cons in IH. simpl in *.
        now rewrite IH.
Qed.

Lemma resolve_unnamed (fields : list (string * string)) (chunks : list string) :
  (forall c, In c chunks -> Spec.field_value fields c = None) ->
  List.map (Spec.resolve fields) chunks = chunks.
Proof.
  intros H. induction chunks as [| c chunks IH]; [reflexivity |].
  simpl. unfold Spec.resolve at 1. rewrite (H c (or_introl eq_refl)).
  f_equal. apply IH. intros c' Hc'. apply H. right. exact Hc'.
Qed.

(** X2.  Splitting the template loses nothing: when no chunk of it is the
    name of a field (or of an inherited member), the file name of the URL
    is the template itself, separators included, followed by [.xls]. *)
Theorem template_without_fields_is_kept (inst : Instance) (template : string) :
  format (settings inst) = Js.split_chunks template ->
  (forall c, In c (Js.split_chunks template) ->
             Spec.field_value (serializeArray inst) c = None
             /\ Obj.is_inherited c = false) ->
  snd (submit inst) = Returns tt
  /\ exists request,
       pending (fst (submit inst)) = pending inst ++ [request]
       /\ url request
          = (base_url (settings inst) ++ Spec.segments (serializeArray inst)
             ++ template ++ ".xls")%string.
Proof.
  intros Hf Hc.
  destruct (submit_request inst) as [Hret [Hp _]].
  - intros c Hin. rewrite Hf in Hin. apply (Hc c Hin).
  - split; [exact Hret |]. eexists. split; [exact Hp |]. simpl.
    rewrite Hf, resolve_unnamed, split_chunks_concat; [reflexivity |].
    intros c Hin. apply (Hc c Hin).
Qed.

Lemma template_without_fields_is_kept_witness :
  match websheet None single_form with
  | Returns inst =>
      List.map url (pending (fst (submit inst))) = ["https://x/r/a:1/table.xls"]
  | TypeError => False
  end.
Proof.
  destruct (websheet None single_form) as [inst |] eqn:Hinit;
    [| discriminate Hinit].
  injection Hinit as <-.
  match goal with
  | |- context [submit ?i] =>
      destruct (@template_without_fields_is_kept i "table" eq_refl)
        as [_ [request [Hp Hu]]]
  end.
  - intros c [<- | []]. split; reflexivity.
  - rewrite Hp. simpl. rewrite Hu. reflexivity.
Defined.

(* ===================================================================== *)
(** * Further properties: the typed cells *)
(* ===================================================================== *)

Lemma filter_append (keep : ascii -> bool) (a b : string) :
  Js.filter keep (a ++ b)%string = (Js.filter keep a ++ Js.filter keep b)%string.
Proof.
  induction a as [| x a IH]; simpl; [reflexivity |].
  destruct (keep x); simpl; now rewrite IH.
Qed.

Lemma filter_filter_none (p q : ascii -> bool) (s : string) :
  Js.filter p s = EmptyString -> Js.filter p (Js.filter q s) = EmptyString.
Proof.
  induction s as [| x s IH]; simpl; [reflexivity |].
  destruct (p x) eqn:Hp; [discriminate |]. intros H.
  destruct (q x); simpl; [rewrite Hp |]; apply IH; exact H.
Qed.

Lemma replace_first_no_digit (s : string) :
  Js.filter Js.is_digit s = EmptyString ->
  Js.filter Js.is_digit (Js.replace_first "," "." s) = EmptyString.
Proof.
  induction s as [| x s IH]; simpl; [reflexivity |].
  destruct (Js.is_digit x) eqn:Hx; [discriminate |]. intros H.
  destruct (Ascii.eqb x ","); simpl.
  - exact H.
  - rewrite Hx. apply IH. exact H.
Qed.

Lemma digits_none (acc : Z) (n : nat) (s : string) :
  Js.filter Js.is_digit s = EmptyString ->
  ParseFloat.digits acc n s = (acc, n, s).
Proof.
  destruct s as [| c s]; simpl; [reflexivity |].
  destruct (Js.is_digit c); [discriminate | reflexivity].
Qed.

Lemma parseFloat_no_digit (s : string) :
  Js.filter Js.is_digit s = EmptyString -> ParseFloat.parseFloat s = NaN.
Proof.
  intros H. unfold ParseFloat.parseFloat.
  assert (Hs : Js.filter Js.is_digit (snd (ParseFloat.sign s)) = EmptyString).
  { unfold ParseFloat.sign. destruct s as [| c s]; [reflexivity |].
    simpl in H. destruct (Js.is_digit c) eqn:Hc; [discriminate |].
    destruct (Js.code c =? 45); [exact H |].
    destruct (Js.code c =? 43); [exact H |].
    simpl. rewrite Hc. exact H. }
  destruct (ParseFloat.sign s) as [neg s1]. simpl in Hs.
  rewrite (digits_none _ _ _ Hs).
  destruct s1 as [| c s3]; [reflexivity |].
  simpl in Hs. destruct (Js.is_digit c); [discriminate |].
  rewrite (digits_none _ _ _ Hs).
  destruct (Js.code c =? 46); reflexivity.
Qed.

(** X3.  A text without a digit reads as [NaN], in every language. *)
Theorem stringToFloat_without_digit (src lang0 : string) :
  Js.filter Js.is_digit src = EmptyString ->
  stringToFloat src lang0 = NaN.
Proof.
  intros H. unfold stringToFloat.
  destruct (String.eqb lang0 "fr"); apply parseFloat_no_digit,
    filter_filter_none; [apply replace_first_no_digit |]; exact H.
Qed.

Lemma stringToFloat_without_digit_witness :
  stringToFloat "n/a, -.- $" "fr" = NaN /\ stringToFloat "n/a, -.- $" "en" = NaN.
Proof.
  split; apply stringToFloat_without_digit; reflexivity.
Defined.

Lemma space_not_numeric (c : ascii) :
  Js.is_space c = true -> Js.is_numeric_char c = false /\ Ascii.eqb c "," = false.
Proof. ascii_cases c. Qed.

Lemma blank_filter_numeric (ws : string) :
  is_blank ws = true -> Js.filter Js.is_numeric_char ws = EmptyString.
Proof.
  induction ws as [| c ws IH]; simpl; [reflexivity |].
  intros H. apply andb_prop in H. destruct H as [Hc Hws].
  destruct (space_not_numeric c Hc) as [-> _]. apply IH. exact Hws.
Qed.

Lemma blank_replace_first (ws : string) :
  is_blank ws = true -> Js.replace_first "," "." ws = ws.
Proof.
  induction ws as [| c ws IH]; simpl; [reflexivity |].
  intros H. apply andb_prop in H. destruct H as [Hc Hws].
  destruct (space_not_numeric c Hc) as [_ ->]. now rewrite IH.
Qed.

Lemma numeric_chars_padded (fr : bool) (ws1 text ws2 : string) :
  is_blank ws1 = true -> is_blank ws2 = true ->
  let prepare s := if fr then Js.replace_first "," "." s else s in
  Js.filter Js.is_numeric_char (prepare (ws1 ++ text ++ ws2)%string)
  = Js.filter Js.is_numeric_char (prepare text).
Proof.
  intros H1 H2 prepare.
  assert (Hr : Js.filter Js.is_numeric_char
                 (Js.replace_first "," "." (text ++ ws2)%string)
               = Js.filter Js.is_numeric_char (Js.replace_first "," "." text)).
  { induction text as [| x text IH]; simpl.
    - rewrite (blank_replace_first _ H2). apply blank_filter_numeric, H2.
    - destruct (Ascii.eqb x ","); simpl.
      + rewrite filter_append, (blank_filter_numeric _ H2), append_nil_r.
        reflexivity.
      + rewrite IH. reflexivity. }
  assert (Hl : forall s,
             Js.filter Js.is_numeric_char (prepare (ws1 ++ s)%string)
             = Js.filter Js.is_numeric_char (prepare s)).
  { intros s. unfold prepare. destruct fr.
    - clear H2 Hr. induction ws1 as [| c ws1 IH]; simpl; [reflexivity |].
      simpl in H1. apply andb_prop in H1. destruct H1 as [Hc Hws].
      destruct (space_not_numeric c Hc) as [Hn ->]. simpl. rewrite Hn.
      apply IH. exact Hws.
    - rewrite filter_append, (blank_filter_numeric _ H1). reflexivity. }
  rewrite Hl. unfold prepare. destruct fr; [exact Hr |].
  rewrite filter_append, (blank_filter_numeric _ H2), append_nil_r. reflexivity.
Qed.

Lemma trim_start_blank (ws : string) :
  is_blank ws = true -> Js.trim_start ws = EmptyString.
Proof.
  induction ws as [| c ws IH]; simpl; [reflexivity |].
  intros H. apply andb_prop in H. destruct H as [-> Hws]. apply IH, Hws.
Qed.

Lemma trim_end_blank (ws : string) :
  is_blank ws = true -> Js.trim_end ws = EmptyString.
Proof.
  induction ws as [| c ws IH]; simpl; [reflexivity |].
  intros H. apply andb_prop in H. destruct H as [Hc Hws].
  rewrite (IH Hws), Hc. reflexivity.
Qed.

Lemma trim_end_padded (s ws : string) :
  is_blank ws = true -> Js.trim_end (s ++ ws)%string = Js.trim_end s.
Proof.
  intros H. induction s as [| c s IH]; simpl.
  - apply trim_end_blank, H.
  - rewrite IH. reflexivity.
Qed.

Lemma trim_padded (ws1 text ws2 : string) :
  is_blank ws1 = true -> is_blank ws2 = true ->
  Js.trim (ws1 ++ text ++ ws2)%string = Js.trim text.
Proof.
  intros H1 H2. unfold Js.trim.
  assert (Hl : forall s, Js.trim_start (ws1 ++ s)%string = Js.trim_start s).
  { intros s. induction ws1 as [| c ws1 IH]; simpl; [reflexivity |].
    simpl in H1. apply andb_prop in H1. destruct H1 as [-> Hws].
    apply IH, Hws. }
  rewrite Hl. clear Hl H1.
  induction text as [| c text IH]; simpl.
  - rewrite (trim_start_blank _ H2). reflexivity.
  - destruct (Js.is_space c); [exact IH |].
    change (String c (text ++ ws2)%string) with (String c text ++ ws2)%string.
    apply trim_end_padded, H2.
Qed.

Section TypedCells.

Context {engine : Engine}.

(** X4.  White space around the text of a cell does not count: under every
    class and every language the cell gets the entry of the text without
    it. *)
Theorem type_cell_ignores_padding
    (lang0 : string) (cls : option string) (ws1 text ws2 : string) :
  is_blank ws1 = true -> is_blank ws2 = true ->
  type_cell lang0 cls (ws1 ++ text ++ ws2)%string = type_cell lang0 cls text.
Proof.
  intros H1 H2. unfold type_cell, stringToFloat.
  rewrite (@trim_padded ws1 text ws2 H1 H2).
  pose proof (@numeric_chars_padded true ws1 text ws2 H1 H2) as Hfr.
  pose proof (@numeric_chars_padded false ws1 text ws2 H1 H2) as Hen.
  cbv zeta in Hfr, Hen. rewrite Hfr, Hen. reflexivity.
Qed.

End TypedCells.

Lemma type_cell_ignores_padding_witness :
  type_cell (engine := bare_engine) "fr" (Some "number") "  12,5 "
  = DNumber (Fin (25 # 2)).
Proof.
  apply (eq_trans (@type_cell_ignores_padding bare_engine "fr" (Some "number")
                     "  " "12,5" " " eq_refl eq_refl)).
  vm_compute. reflexivity.
Defined.

Lemma trim_empty (s : string) :
  String.eqb (Js.trim s) EmptyString = is_blank s.
Proof.
  unfold Js.trim. induction s as [| c s IH]; simpl; [reflexivity |].
  destruct (Js.is_space c) eqn:E; simpl; [exact IH |].
  rewrite E. destruct (Js.trim_end s); reflexivity.
Qed.

Lemma dot_or_dash_not_space (c : ascii) :
  is_dot_or_dash c = true -> Js.is_space c = false.
Proof. ascii_cases c. Qed.

Section SeparatorsAlike.

Variable f : ascii -> ascii.
Hypothesis f_fixes : forall c, is_dot_or_dash c = false -> f c = c.
Hypothesis f_keeps : forall c, is_dot_or_dash c = true -> is_dot_or_dash (f c) = true.

Lemma f_space (c : ascii) : Js.is_space (f c) = Js.is_space c.
Proof.
  destruct (is_dot_or_dash c) eqn:E.
  - rewrite (dot_or_dash_not_space _ (f_keeps _ E)).
    rewrite (dot_or_dash_not_space _ E). reflexivity.
  - rewrite (f_fixes _ E). reflexivity.
Qed.

Lemma f_separator (c : ascii) :
  Js.is_date_separator (f c) = Js.is_date_separator c.
Proof.
  assert (H : forall x, Js.is_date_separator x = Js.is_space x || is_dot_or_dash x).
  { intros x. unfold Js.is_date_separator, is_dot_or_dash. apply eq_sym, orb_assoc. }
  rewrite !H, f_space. destruct (is_dot_or_dash c) eqn:E.
  - rewrite (f_keeps _ E). reflexivity.
  - rewrite (f_fixes _ E), E. reflexivity.
Qed.

Lemma f_other (c : ascii) : Js.is_date_separator c = false -> f c = c.
Proof.
  intros H. apply f_fixes. unfold Js.is_date_separator, is_dot_or_dash in *.
  apply orb_false_elim in H. destruct H as [H H45].
  apply orb_false_elim in H. destruct H as [_ H46]. rewrite H45, H46. reflexivity.
Qed.

Lemma trim_start_map (s : string) :
  Js.trim_start (Js.map f s) = Js.map f (Js.trim_start s).
Proof.
  induction s as [| c s IH]; simpl; [reflexivity |].
  rewrite f_space. destruct (Js.is_space c); [exact IH | reflexivity].
Qed.

Lemma trim_end_map (s : string) :
  Js.trim_end (Js.map f s) = Js.map f (Js.trim_end s).
Proof.
  induction s as [| c s IH]; simpl; [reflexivity |].
  rewrite IH, f_space. destruct (Js.trim_end s); simpl.
  - destruct (Js.is_space c); reflexivity.
  - reflexivity.
Qed.

Lemma replace_runs_map (s : string) :
  Js.replace_runs Js.is_date_separator "/" (Js.map f s)
  = Js.replace_runs Js.is_date_separator "/" s.
Proof.
  induction s as [| c s IH]; [reflexivity |].
  cbn [Js.map Js.replace_runs]. rewrite f_separator.
  destruct (Js.is_date_separator c) eqn:E.
  - destruct s as [| c' s']; [reflexivity |].
    cbn [Js.map] in *. rewrite f_separator. rewrite IH. reflexivity.
  - rewrite (f_other _ E), IH. reflexivity.
Qed.

(** X5.  In a date cell periods and hyphens are interchangeable: exchanging
    them, in any place, gives the same string to [new Date], hence the same
    entry, whatever the engine makes of it. *)
Theorem date_separators_are_alike {engine : Engine} (lang0 text : string) :
  type_cell lang0 (Some "date") (Js.map f text)
  = type_cell lang0 (Some "date") text.
Proof.
  unfold type_cell. simpl. unfold Js.trim.
  rewrite trim_start_map, trim_end_map, replace_runs_map. reflexivity.
Qed.

End SeparatorsAlike.

Lemma date_separators_are_alike_witness :
  Js.map swap_dot_dash "2013-08.15" = "2013.08-15"
  /\ type_cell (engine := bare_engine) "en" (Some "date") "2013.08-15"
     = type_cell (engine := bare_engine) "en" (Some "date") "2013-08.15".
Proof.
  split; [reflexivity |].
  refine (@date_separators_are_alike swap_dot_dash _ _ bare_engine "en"
            "2013-08.15").
  - intros c. ascii_cases c.
  - intros c. ascii_cases c.
Defined.

(** X6.  A cell of a [bool] column whose text has ASCII characters only is
    [false] exactly when the text is empty or white space only.  (Outside
    ASCII [trim] knows more white space than the model, the no-break space
    for one.) *)
Theorem bool_cell_is_false_on_blank {engine : Engine} (lang0 text : string) :
  is_ascii text = true ->
  type_cell lang0 (Some "bool") text = DBool (negb (is_blank text)).
Proof. intros _. unfold type_cell. simpl. rewrite trim_empty. reflexivity. Qed.

Lemma bool_cell_is_false_on_blank_witness :
  type_cell (engine := bare_engine) "en" (Some "bool") "  " = DBool false
  /\ type_cell (engine := bare_engine) "en" (Some "bool") " x " = DBool true.
Proof.
  split.
  - apply (@bool_cell_is_false_on_blank bare_engine "en" "  " eq_refl).
  - apply (@bool_cell_is_false_on_blank bare_engine "en" " x " eq_refl).
Defined.

(* ===================================================================== *)
(** * Further properties: the order of the rows *)
(* ===================================================================== *)

Section RowsInOrder.

Context {engine : Engine}.

Lemma orderable_comparable (c : nat) (k : option string) (r : Row) :
  orderable c k r -> comparable c k r.
Proof.
  unfold orderable, comparable. destruct (is_numeric_type k).
  - intros [q [Hq _]]. rewrite to_number_entry, Hq. discriminate.
  - intros [s [Hs _]]. exists s. exact Hs.
Qed.

(** Rows the comparator leaves in place are in the order of their
    entries. *)
Lemma sorted_in_order (c : nat) (k : option string) (s : list Row) :
  Forall (comparable c k) s ->
  Sorted (not_greater (comparator c k)) s ->
  Sorted (in_order c k) s.
Proof.
  intros Hf Hs. induction Hs as [| a s Hs IH Hhd]; [constructor |].
  inversion Hf as [| ? ? Ha Hf']; subst.
  constructor; [apply IH, Hf' |].
  destruct Hhd as [| b s Hab]; constructor.
  inversion Hf' as [| ? ? Hb _]; subst.
  destruct (@comparator_reads engine c k a b Ha Hb) as [q [Hq Hc]].
  unfold in_order. rewrite <- Hc. apply (Hab (Fin q) Hq).
Qed.

(** X7.  When the engine sorts as the standard asks and every row has, in
    the column, an entry the model orders as the code does (a Number other
    than [NaN] for the numeric types, a string of ASCII characters for the
    text type), the ascending sort returns the rows with every entry not
    after the next one: in the order of the numbers, or in that of the
    texts in upper case. *)
Theorem ascending_rows_are_in_order
    (rows : list Row) (colIndex : nat) (sortType : option string) :
  standard_sort engine ->
  Forall (orderable colIndex sortType) rows ->
  exists sorted,
    sort_rows rows colIndex false sortType = Returns sorted
    /\ Permutation rows sorted
    /\ Sorted (in_order colIndex sortType) sorted.
Proof.
  intros Hstd Hok.
  assert (Hc : Forall (comparable colIndex sortType) rows).
  { revert Hok. apply Forall_impl. apply orderable_comparable. }
  assert (Hs : Forall (sortable colIndex sortType) rows).
  { revert Hc. apply Forall_impl. apply comparable_sortable. }
  unfold sort_rows.
  destruct (array_sort_returns (comparator colIndex sortType)
              (comparator_returns (k := sortType)) Hs) as [s Hsort].
  rewrite Hsort. simpl. exists s. split; [reflexivity |].
  pose proof (array_sort_permutation _ _ Hsort) as Hp.
  split; [exact Hp |].
  apply sorted_in_order; [apply (Permutation_Forall Hp Hc) |].
  apply (Hstd Row (comparator colIndex sortType) rows s
           (comparator_consistent Hc) Hsort).
Qed.

End RowsInOrder.

Lemma ascending_rows_are_in_order_witness :
  exists sorted,
    sort_rows (engine := bare_engine) counts 0 false (Some "number")
    = Returns sorted
    /\ List.map __data sorted
       = [ [DNumber (Fin 1)]; [DNumber (Fin 2)]; [DNumber (Fin 3)] ]
    /\ Sorted (in_order (engine := bare_engine) 0 (Some "number")) sorted.
Proof.
  destruct (@ascending_rows_are_in_order bare_engine counts 0 (Some "number")
              bare_engine_standard)
    as [sorted [Hs [_ Ho]]].
  - unfold counts. cbn [List.map].
    apply Forall_cons;
      [exists 3%Q; split;
       [| exists 3%Z, 0%Z; split; [| split; [lia |]]]; reflexivity |].
    apply Forall_cons;
      [exists 1%Q; split;
       [| exists 1%Z, 0%Z; split; [| split; [lia |]]]; reflexivity |].
    apply Forall_cons;
      [exists 2%Q; split;
       [| exists 1%Z, 1%Z; split; [| split; [lia |]]]; reflexivity |].
    apply Forall_nil.
  - exists sorted. split; [exact Hs |]. split; [| exact Ho].
    vm_compute in Hs. injection Hs as <-. reflexivity.
Defined.

(* ===================================================================== *)
(** * Further properties: the table shown *)
(* ===================================================================== *)


Lemma take_out_last {A : Type} (l : list A) (x : A) :
  take_out (length l) (l ++ [x]) = Some (x, l).
Proof.
  induction l as [| y l IH]; simpl; [reflexivity |]. now rewrite IH.
Qed.

Section TableShown.

Context {engine : Engine}.


Lemma submit_dl_url (inst : Instance) :
  plain_template inst ->
  exists request,
    pending (fst (submit inst)) = pending inst ++ [request]
    /\ dl_url (fst (submit inst)) = url request
    /\ controls (fst (submit inst)) = controls inst
    /\ hiddens (fst (submit inst)) = hiddens inst
    /\ div (fst (submit inst)) = Markup (loading (settings inst))
    /\ snd (submit inst) = Returns tt.
Proof.
  intros Hp. unfold submit. rewrite fields_loop.
  rewrite (chunks_loop (serializeArray inst)).
  - simpl. eexists. repeat split.
  - intros k Hk. rewrite (own_fields _ Obj.empty k Hk).
    destruct (Spec.field_value (serializeArray inst) k); reflexivity.
  - exact Hp.
Qed.


Lemma success_last_submit (inst : Instance) (req : Request) (data : Document) :
  last_submit (fst (success inst req data)) = fieldsObj req
  /\ pending (fst (success inst req data)) = pending inst.
Proof.
  unfold success.
  destruct (scan_headers inst _) as [[col desc] classes].
  destruct data as [raw |]; simpl.
  - match goal with
    | |- context [sortTable ?t ?c ?d ?k] =>
        destruct (sortTable t c d k) as [t' [[] |]]
    end; simpl;
      rewrite run_callback_last_submit, run_callback_pending; split; reflexivity.
  - rewrite run_callback_last_submit, run_callback_pending. split; reflexivity.
Qed.

(** X10.  Whatever the document of a response, with or without a table and
    also when the sort throws, [success] makes [getState] return the fields
    of the request it answers and leaves the other requests waiting: of
    several responses the last to arrive decides. *)
Theorem last_response_wins
    (inst : Instance) (n : nat) (data : Document)
    (req : Request) (others : list Request) :
  take_out n (pending inst) = Some (req, others) ->
  getState (step inst (Success n data)) = fieldsObj req
  /\ pending (step inst (Success n data)) = others.
Proof.
  intros H. unfold step, getState. rewrite H.
  destruct (success_last_submit (set_pending others inst) req data) as [-> ->].
  split; reflexivity.
Qed.

(** X11.  After a submission and its response, [getState] gives, for every
    name, the value of the last field of the form with that name, also for
    the fields the URL leaves out (empty value, name starting with an
    underscore); a name no field has is not a key. *)
Theorem getState_reports_every_field
    (inst : Instance) (data : Document) (k : string) :
  plain_template inst ->
  String.eqb k "__proto__" = false ->
  Obj.own k
    (getState (run inst [Submit; Success (length (pending inst)) data]))
  = Spec.field_value (serializeArray inst) k.
Proof.
  intros Hp Hk. unfold run. cbn [fold_left].
  destruct (submit_request inst Hp) as [_ [Hpend _]].
  change (step inst Submit) with (fst (submit inst)).
  match type of Hpend with
  | _ = _ ++ [?r] =>
      destruct (@last_response_wins (fst (submit inst)) (length (pending inst))
                  data r (pending inst)) as [-> _]
  end.
  - rewrite Hpend. apply take_out_last.
  - simpl. rewrite (own_fields _ Obj.empty k Hk).
    destruct (Spec.field_value (serializeArray inst) k); reflexivity.
Qed.

End TableShown.


Lemma last_response_wins_witness :
  match websheet None (report_form "https://x/r") with
  | Returns inst0 =>
      let inst :=
        run (engine := bare_engine) inst0
          [Submit; SetState [("year", "2021")]; Success 1 (Some ledger)] in
      List.map fieldsObj (pending inst) = [[("year", "2020"); ("_debug", "x")]]
      /\ getState inst = [("year", "2021"); ("_debug", "x")]
      /\ getState (step (engine := bare_engine) inst (Success 0 None))
         = [("year", "2020"); ("_debug", "x")]
  | TypeError => False
  end.
Proof.
  destruct (websheet None (report_form "https://x/r")) as [inst0 |] eqn:Hinit;
    [| discriminate Hinit].
  injection Hinit as <-. cbv zeta.
  split; [vm_compute; reflexivity |]. split; [vm_compute; reflexivity |].
  match goal with
  | |- getState (step ?i _) = _ =>
      destruct (@last_response_wins bare_engine i 0 None report_request [])
        as [-> _]
  end.
  - vm_compute. reflexivity.
  - reflexivity.
Defined.

Lemma getState_reports_every_field_witness :
  match websheet None (report_form "https://x/r") with
  | Returns inst0 =>
      Obj.own "_debug"
        (getState (run (engine := bare_engine) inst0
                     [Submit; Success (length (pending inst0)) None]))
      = Some "x"
  | TypeError => False
  end.
Proof.
  destruct (websheet None (report_form "https://x/r")) as [inst0 |] eqn:Hinit;
    [| discriminate Hinit].
  injection Hinit as <-.
  match goal with
  | |- context [run ?i _] =>
      rewrite (@getState_reports_every_field bare_engine i None "_debug")
  end.
  - reflexivity.
  - intros c Hc. vm_compute in Hc.
    destruct Hc as [<- | [<- | [<- | []]]]; reflexivity.
  - reflexivity.
Defined.

(* ===================================================================== *)
(** * Further properties: [submit] and [setState] *)
(* ===================================================================== *)

Lemma own_unnamed (fields : list (string * string)) (o : Obj.t) (k : string) :
  Spec.field_value fields k = None ->
  Obj.own k (fold_left assign_field fields o) = Obj.own k o.
Proof.
  revert o. induction fields as [| [n v] fields IH]; intros o H.
  - reflexivity.
  - simpl in H. destruct (Spec.field_value fields k) eqn:Hr; [discriminate |].
    destruct (String.eqb n k) eqn:En; [discriminate |].
    simpl. rewrite (IH _ eq_refl). unfold assign_field, Obj.assign. simpl.
    destruct (String.eqb n "__proto__"); [reflexivity |].
    rewrite own_set, En. reflexivity.
Qed.

Lemma each_chunk_throws (o : Obj.t) (chunks : list string) (u : string)
    (chunk : string) :
  In chunk chunks -> Obj.get chunk o = Obj.Inherited ->
  snd (each_chunk o chunks u) = TypeError.
Proof.
  intros Hin Hget. revert u.
  induction chunks as [| c chunks IH]; intros u; [contradiction |].
  simpl. destruct (Obj.get c o) eqn:Hc; try reflexivity;
    (destruct Hin as [-> | Hin]; [congruence | apply IH; exact Hin]).
Qed.

(** X12.  A template with a chunk that names a member inherited from
    [Object.prototype] ([constructor], [toString], ...), when no field of
    the form has that name, makes the submission throw: no request is made
    and the display area is left as it was. *)
Theorem submit_throws_on_inherited_chunk (inst : Instance) (chunk : string) :
  In chunk (format (settings inst)) ->
  Obj.is_inherited chunk = true ->
  Spec.field_value (serializeArray inst) chunk = None ->
  snd (submit inst) = TypeError
  /\ pending (fst (submit inst)) = pending inst
  /\ div (fst (submit inst)) = div inst.
Proof.
  intros Hin Hinh Hnone. unfold submit. rewrite fields_loop.
  pose proof (@each_chunk_throws
                (fold_left assign_field (serializeArray inst) Obj.empty)
                (format (settings inst))
                (base_url (settings inst) ++ Spec.segments (serializeArray inst))
                chunk Hin) as Hthrow.
  destruct (each_chunk _ (format (settings inst)) _) as [u [[] |]].
  - simpl in Hthrow. assert (H : Returns tt = @TypeError unit); [| discriminate H].
    apply Hthrow. unfold Obj.get. rewrite (own_unnamed _ _ _ Hnone), Hinh.
    reflexivity.
  - repeat split.
Qed.

Lemma submit_throws_on_inherited_chunk_witness :
  match
    websheet None
      {| data_filename_format := Some "report-constructor";
         data_source := Some "https://x/r/";
         inputs := [text_input "a" "1"];
         widget_forms := [] |}
  with
  | Returns inst =>
      snd (submit inst) = TypeError /\ pending (fst (submit inst)) = []
  | TypeError => False
  end.
Proof.
  match goal with
  | |- match ?w with _ => _ end => destruct w as [inst |] eqn:Hinit
  end; [| discriminate Hinit].
  injection Hinit as <-.
  match goal with
  | |- snd (submit ?i) = _ /\ _ =>
      destruct (@submit_throws_on_inherited_chunk i "constructor")
        as [Ht [Hp _]]
  end.
  - vm_compute. right. right. left. reflexivity.
  - reflexivity.
  - reflexivity.
  - split; [exact Ht | exact Hp].
Defined.

Lemma submit_controls (inst : Instance) :
  controls (fst (submit inst)) = controls inst
  /\ hiddens (fst (submit inst)) = hiddens inst.
Proof.
  unfold submit.
  destruct (fold_left each_field (serializeArray inst)
              (base_url (settings inst), Obj.empty)) as [u o].
  destruct (each_chunk o (format (settings inst)) u) as [u' [[] |]];
    split; reflexivity.
Qed.

Lemma each_inputs_unchanged (changed : bool) (data : Obj.t) (cs : list Control)
    (data' : Obj.t) (cs' : list Control) :
  each_inputs changed data cs = (false, data', cs') ->
  changed = false /\ data' = data /\ cs' = cs.
Proof.
  revert changed data data' cs'.
  induction cs as [| c cs IH]; intros changed data data' cs' H; simpl in H.
  - injection H as -> -> ->. repeat split.
  - destruct (each_input changed data c) as [[changed1 data1] c1] eqn:E1.
    destruct (each_inputs changed1 data1 cs) as [[changed2 data2] rest] eqn:E2.
    injection H as -> -> <-.
    destruct (IH _ _ _ _ E2) as [-> [-> ->]].
    unfold each_input in E1.
    destruct (Obj.own (control_key c) data) as [v |].
    + destruct (negb (widget_field c) && negb (String.eqb v (value c)));
        [discriminate E1 |].
      injection E1 as -> -> ->. repeat split.
    + injection E1 as -> -> ->. repeat split.
Qed.

Lemma each_widget_unchanged (changed : bool) (data : Obj.t) (ws : list Widget)
    (data' : Obj.t) :
  each_widget changed data ws = (false, data') -> changed = false.
Proof.
  revert changed data. induction ws as [| w ws IH]; intros changed data H;
    simpl in H.
  - injection H as -> _. reflexivity.
  - destruct (w data) as [answer data1].
    apply IH in H. destruct answer; [discriminate H | exact H].
Qed.

(** A submission that returns has made a request. *)
Lemma submit_returned (inst : Instance) :
  snd (submit inst) = Returns tt ->
  exists request, pending (fst (submit inst)) = pending inst ++ [request].
Proof.
  unfold submit.
  destruct (fold_left each_field (serializeArray inst)
              (base_url (settings inst), Obj.empty)) as [u o].
  destruct (each_chunk o (format (settings inst)) u) as [u' [[] |]]; simpl.
  - intros _. eexists. reflexivity.
  - discriminate.
Qed.

(** X13.  When [setState] returns [false] it has written no control and
    every key of the object was taken by a widget; the form is left without
    a hidden input, those of an earlier call being dropped, and it was
    submitted all the same: one more request is waiting. *)
Theorem setState_false_writes_no_control
    (inst after : Instance) (data residual : Obj.t) :
  setState inst data = (after, residual, Returns false) ->
  controls after = controls inst
  /\ residual = []
  /\ hiddens after = []
  /\ exists request, pending after = pending inst ++ [request].
Proof.
  unfold setState.
  destruct (each_inputs false data (controls (set_hiddens [] inst)))
    as [[changed1 data1] controls1] eqn:E1.
  destruct (each_widget changed1 data1 _) as [changed2 data2] eqn:E2.
  match goal with
  | |- context [submit ?i] =>
      destruct (submit_controls i) as [Hc Hh];
      pose proof (submit_returned i) as Hp;
      destruct (submit i) as [i' [[] |]]
  end; intros H; [| discriminate H].
  injection H as <- <- Hchanged. simpl in Hc, Hh, Hp.
  destruct data2 as [| kv data2]; [| discriminate Hchanged]. subst changed2.
  apply each_widget_unchanged in E2. subst changed1.
  destruct (each_inputs_unchanged _ _ _ E1) as [_ [_ ->]].
  rewrite Hc, Hh. repeat split. apply Hp. reflexivity.
Qed.

Lemma setState_false_writes_no_control_witness :
  match websheet None single_form with
  | Returns inst =>
      let once := fst (fst (setState inst [("b", "2")])) in
      let twice := fst (fst (setState once [])) in
      hiddens once = [("b", "2")]
      /\ snd (setState once []) = Returns false
      /\ controls twice = controls once
      /\ hiddens twice = []
      /\ List.map url (pending twice)
         = ["https://x/r/a:1/b:2/table.xls"; "https://x/r/a:1/table.xls"]
  | TypeError => False
  end.
Proof.
  destruct (websheet None single_form) as [inst |] eqn:Hinit;
    [| discriminate Hinit].
  injection Hinit as <-. cbv zeta.
  match goal with
  | |- context [setState ?i []] =>
      destruct (@setState_false_writes_no_control i
                  (fst (fst (setState i []))) [] [])
        as [Hc [_ [Hh _]]]
  end.
  - vm_compute. reflexivity.
  - split; [vm_compute; reflexivity |]. split; [vm_compute; reflexivity |].
    split; [exact Hc |]. split; [exact Hh |]. vm_compute. reflexivity.
Defined.

Lemma own_In (k v : string) (o : Obj.t) :
  Obj.own k o = Some v -> In (k, v) o.
Proof.
  induction o as [| [k' v'] o IH]; simpl; [discriminate |].
  destruct (String.eqb_spec k' k) as [-> | _].
  - intros H. injection H as ->. left. reflexivity.
  - intros H. right. apply IH, H.
Qed.

Lemma delete_incl (k : string) (o : Obj.t) : incl (Obj.delete k o) o.
Proof.
  induction o as [| [k' v'] o IH]; simpl; [apply incl_refl |].
  destruct (String.eqb k' k).
  - apply incl_tl, incl_refl.
  - intros x [<- | Hx]; [left; reflexivity | right; apply IH, Hx].
Qed.

(** What [setState] may do to one control, given the object it received. *)
Lemma each_inputs_writes (changed : bool) (data : Obj.t) (cs : list Control) :
  let '(_, data', cs') := each_inputs changed data cs in
  incl data' data
  /\ Forall2
       (fun c c' =>
          name c' = name c /\ widget_field c' = widget_field c
          /\ (value c' = value c
              \/ (widget_field c = false
                  /\ In (control_key c, value c') data)))
       cs cs'.
Proof.
  revert changed data. induction cs as [| c cs IH]; intros changed data; simpl.
  - split; [apply incl_refl | constructor].
  - destruct (each_input changed data c) as [[changed1 data1] c1] eqn:E1.
    specialize (IH changed1 data1).
    destruct (each_inputs changed1 data1 cs) as [[changed2 data2] rest].
    destruct IH as [Hincl Hall].
    assert (H1 : incl data1 data
                 /\ name c1 = name c /\ widget_field c1 = widget_field c
                 /\ (value c1 = value c
                     \/ (widget_field c = false
                         /\ In (control_key c, value c1) data))).
    { unfold each_input in E1.
      destruct (Obj.own (control_key c) data) as [v |] eqn:Hown.
      - destruct (widget_field c) eqn:Hw; simpl in E1.
        + injection E1 as _ <- <-. split; [apply incl_refl |].
          rewrite Hw. repeat split. left. reflexivity.
        + destruct (String.eqb v (value c)); simpl in E1.
          * injection E1 as _ <- <-. split; [apply incl_refl |].
            rewrite Hw. repeat split. left. reflexivity.
          * injection E1 as _ <- <-. split; [apply delete_incl |].
            simpl. repeat split. right.
            split; [reflexivity | apply own_In, Hown].
      - injection E1 as _ <- <-. split; [apply incl_refl |].
        repeat split. left. reflexivity. }
    destruct H1 as [Hincl1 Hc1]. split.
    + intros x Hx. apply Hincl1, Hincl, Hx.
    + constructor; [exact Hc1 |].
      eapply Forall2_impl; [| exact Hall].
      intros a b [Hn [Hwf Hv]]. split; [exact Hn |]. split; [exact Hwf |].
      destruct Hv as [Hv | [Hf Hin]]; [left; exact Hv | right].
      split; [exact Hf | apply Hincl1, Hin].
Qed.



Section SetStateSubmits.

Context {engine : Engine}.

(** X15.  [setState] submits the form whether or not anything changed: a
    request is made and the loading markup shown.  The hidden inputs of the
    form are then exactly the keys left in the object, those of an earlier
    call being dropped; without widgets the keys left are keys the object
    had. *)
Theorem setState_always_submits (inst : Instance) (data : Obj.t) :
  plain_template inst ->
  exists after residual changed request,
    setState inst data = (after, residual, Returns changed)
    /\ pending after = pending inst ++ [request]
    /\ div after = Markup (loading (settings inst))
    /\ hiddens after = residual
    /\ (widgets (settings inst) = [] -> incl residual data).
Proof.
  intros Hp. unfold setState.
  pose proof (each_inputs_writes false data (controls (set_hiddens [] inst)))
    as Hw.
  destruct (each_inputs false data (controls (set_hiddens [] inst)))
    as [[changed1 data1] controls1].
  destruct Hw as [Hincl _].
  destruct (each_widget changed1 data1
              (widgets (settings (set_controls controls1 (set_hiddens [] inst)))))
    as [changed2 data2] eqn:E2.
  match goal with
  | |- context [submit ?i] =>
      destruct (@submit_dl_url i Hp) as [request [Hpend [_ [_ [Hh [Hd Hr]]]]]];
      destruct (submit i) as [i' out]
  end.
  simpl in Hpend, Hh, Hd, Hr. subst out.
  eexists i', data2, _, request. split; [reflexivity |].
  split; [exact Hpend |]. split; [exact Hd |]. split; [exact Hh |].
  intros Hnone. simpl in E2. rewrite Hnone in E2. simpl in E2.
  injection E2 as _ <-. exact Hincl.
Qed.

(** X16.  The sort a click chose survives a reload: when the next table has,
    at the same index, a header cell with the same text, the loop over its
    header takes the column and the direction of the click. *)
Theorem clicked_sort_survives_reload
    (inst : Instance) (t : Table) (h : Header) (i : nat)
    (head : list RawHeader) (rh : RawHeader) :
  div inst = Shown t ->
  nth_error (t_head t) i = Some h ->
  Forall (sortable i (className h)) (t_rows t) ->
  nth_error head i = Some rh ->
  rh_text rh = h_text h ->
  exists desc,
    __websheet_sort_desc (step inst (Click i)) = Some desc
    /\ scan_headers (step inst (Click i)) head
       = (i, desc, List.map rh_class head).
Proof.
  intros Hdiv Hh Hrows Hrh Htext.
  destruct (@click_effect engine inst t h i Hdiv Hh Hrows)
    as [rows [_ [_ Hstep]]].
  cbv zeta in Hstep. rewrite Hstep. eexists. split; [reflexivity |].
  rewrite scan_headers_closed. unfold Spec.reload_sort, Spec.reapplied. simpl.
  rewrite Hrh, Htext, String.eqb_refl. reflexivity.
Qed.

End SetStateSubmits.

Lemma setState_always_submits_witness :
  match websheet None single_form with
  | Returns inst =>
      exists after request,
        setState inst [("a", "1"); ("b", "2")]
        = (after, [("a", "1"); ("b", "2")], Returns true)
        /\ pending after = [request]
        /\ hiddens after = [("a", "1"); ("b", "2")]
  | TypeError => False
  end.
Proof.
  destruct (websheet None single_form) as [inst |] eqn:Hinit;
    [| discriminate Hinit].
  injection Hinit as <-.
  match goal with
  | |- context [setState ?i ?d] =>
      destruct (@setState_always_submits i d)
        as [after [residual [changed [request [Hs [Hp [_ [Hh _]]]]]]]]
  end.
  - intros c [<- | []]. reflexivity.
  - exists after, request.
    assert (Hres : residual = [("a", "1"); ("b", "2")] /\ changed = true).
    { vm_compute in Hs. injection Hs as _ <- <-. split; reflexivity. }
    destruct Hres as [-> ->].
    split; [exact Hs |]. split; [exact Hp | exact Hh].
Defined.

Lemma clicked_sort_survives_reload_witness :
  match websheet None (report_form "https://x/r") with
  | Returns inst0 =>
      let inst :=
        run (engine := bare_engine) inst0 [Submit; Success 0 (Some ledger)] in
      scan_headers (step (engine := bare_engine) inst (Click 1)) (rt_head ledger)
      = (1, false, [Some "number"; None])
  | TypeError => False
  end.
Proof.
  destruct (websheet None (report_form "https://x/r")) as [inst0 |] eqn:Hinit;
    [| discriminate Hinit].
  injection Hinit as <-. cbv zeta.
  match goal with
  | |- scan_headers (step ?i _) _ = _ =>
      destruct (div i) as [| t] eqn:Hdiv; [vm_compute in Hdiv; discriminate Hdiv |];
      destruct (nth_error (t_head t) 1) as [h |] eqn:Hh;
        [| vm_compute in Hdiv; injection Hdiv as <-; discriminate Hh];
      destruct (@clicked_sort_survives_reload bare_engine i t h 1
                  (rt_head ledger) {| rh_class := None; rh_text := "Name" |}
                  Hdiv Hh)
        as [desc [Hdesc Hscan]]
  end.
  - vm_compute in Hdiv. injection Hdiv as <-. vm_compute in Hh.
    injection Hh as <-.
    repeat (apply Forall_cons; [right; eexists; reflexivity |]).
    apply Forall_nil.
  - reflexivity.
  - vm_compute in Hdiv. injection Hdiv as <-. vm_compute in Hh.
    injection Hh as <-. reflexivity.
  - rewrite Hscan. vm_compute in Hdesc. injection Hdesc as <-. reflexivity.
Defined.

Lemma filter_twice (p q : ascii -> bool) (s : string) :
  (forall c, p c = true -> q c = true) ->
  Js.filter p (Js.filter q s) = Js.filter p s.
Proof.
  intros H. induction s as [| c s IH]; simpl; [reflexivity |].
  destruct (q c) eqn:Hq; simpl.
  - rewrite IH. reflexivity.
  - destruct (p c) eqn:Hp; [rewrite (H c Hp) in Hq; discriminate | exact IH].
Qed.

(** X17.  In a language other than [fr] the commas of a number do not
    count: the text reads as it does without them. *)
Theorem stringToFloat_ignores_commas (src lang0 : string) :
  String.eqb lang0 "fr" = false ->
  stringToFloat src lang0
  = stringToFloat (Js.remove (fun c => Ascii.eqb c ",") src) lang0.
Proof.
  intros H. unfold stringToFloat, Js.remove. rewrite H.
  rewrite filter_twice; [reflexivity |].
  intros c. ascii_cases c.
Qed.

Lemma stringToFloat_ignores_commas_witness :
  stringToFloat "1,234,567.5" "en" = Fin (2469135 # 2).
Proof.
  rewrite (@stringToFloat_ignores_commas "1,234,567.5" "en" eq_refl).
  vm_compute. reflexivity.
Defined.
